(** * DeviceControl: the BLE session screen of SyncControlApp

    A shallow embedding of the [DeviceControl] React component: its two
    constant tables ([BLE_CONFIG], [MOTOR_COMMANDS]), its five pieces of
    React state and its event handlers ([requestPermissions], [startScan]
    and the scan listener, [connectToDevice], [disconnectDevice],
    [sendCommand], [toggleBreathingMode]).

    The handlers are [async] functions that call into the BLE binding, so
    they are written in a small monad that threads the React store and a
    chronological trace of the calls made to the outside world, and that
    completes either normally or by throwing (a rejected promise). What the
    outside world answers is a parameter ([Adapter]). *)

From Stdlib Require Import ZArith Lia Ascii String QArith Qround Lqa.
From stdpp Require Import base option list strings gmap.

Local Open Scope Z_scope.
Local Open Scope string_scope.
Local Open Scope list_scope.

#[local] Set Warnings "-clear-no-such-hyp".

(** ** JavaScript values used by the component *)

(** An error value thrown by the BLE binding or by the runtime. *)
Definition JsError := string.

(** The way an [async] call settles: the promise resolves with a value or
    rejects with an error. *)
Inductive Completion (A : Type) : Type :=
| Normal (a : A)
| Throw (e : JsError).
Arguments Normal {A} a.
Arguments Throw {A} e.

(** A peripheral as the BLE binding hands it to the scan listener: [name] is
    [null] for a peripheral that advertises no name. *)
Record Device := mkDevice {
  id : string;
  name : option string;
}.

#[global] Instance Device_eq_dec : EqDecision Device.
Proof. solve_decision. Defined.

(** [a === b] on values of one type. *)
Definition strict_eq {A} `{EqDecision A} (a b : A) : bool := bool_decide (a = b).
Infix "===" := strict_eq (at level 70, no associativity).

(** Interpolation of a nullable string in a template literal. *)
Definition template (s : option string) : string :=
  match s with
  | Some s => s
  | None => "null"
  end.

(** ** Constant tables *)

Module BLE_CONFIG.
Definition SERVICE_UUID : string := "000000ff-0000-1000-8000-00805f9b34fb".
Definition WRITE_CHARACTERISTIC : string := "0000ff03-0000-1000-8000-00805f9b34fb".
Definition READ_ANGLE_CHARACTERISTIC : string := "0000ff04-0000-1000-8000-00805f9b34fb".
End BLE_CONFIG.

(** The rows of the [MOTOR_COMMANDS] object literal, in source order. *)
Definition MOTOR_COMMANDS_rows : list (string * list Z) :=
  [ ("FORWARD", [0x01; 0x03]);
    ("REVERSE", [0x01; 0x01]);
    ("STOP", [0x01; 0x00]);
    ("START_BREATHING", [0x01; 0x01; 0x01]);
    ("STOP_BREATHING", [0x01; 0x00; 0x01]) ].

Definition MOTOR_COMMANDS : gmap string (list Z) := list_to_map MOTOR_COMMANDS_rows.

(** [MOTOR_COMMANDS.KEY] for a key the component names. All the keys the
    component names are rows of the table; the default is never reached. *)
Definition motor_command (key : string) : list Z := MOTOR_COMMANDS !!! key.

(** ** Transport framing: [Buffer.from(command).toString('base64')] *)

(** [Buffer.from(array)] stores every entry as an unsigned byte. *)
Definition Buffer_from (array : list Z) : list Z :=
  (fun x => Z.land x 255) <$> array.

Definition base64_alphabet : list ascii :=
  list_ascii_of_string
    "ABCDEFGHIJKLMNOPQRSTUVWXYZabcdefghijklmnopqrstuvwxyz0123456789+/".

(** The character of a six-bit value. *)
Definition base64_char (sextet : Z) : ascii :=
  nth (Z.to_nat sextet) base64_alphabet "="%char.

(** Three bytes make four characters; a last group of one or two bytes is
    padded with [=]. *)
Fixpoint base64_chars (bytes : list Z) : list ascii :=
  match bytes with
  | [] => []
  | [a] =>
      [ base64_char (Z.shiftr a 2);
        base64_char (Z.shiftl (Z.land a 3) 4);
        "="%char; "="%char ]
  | [a; b] =>
      [ base64_char (Z.shiftr a 2);
        base64_char (Z.lor (Z.shiftl (Z.land a 3) 4) (Z.shiftr b 4));
        base64_char (Z.shiftl (Z.land b 15) 2);
        "="%char ]
  | a :: b :: c :: rest =>
      base64_char (Z.shiftr a 2)
      :: base64_char (Z.lor (Z.shiftl (Z.land a 3) 4) (Z.shiftr b 4))
      :: base64_char (Z.lor (Z.shiftl (Z.land b 15) 2) (Z.shiftr c 6))
      :: base64_char (Z.land c 63)
      :: base64_chars rest
  end.

Definition toString_base64 (buffer : list Z) : string :=
  string_of_list_ascii (base64_chars buffer).

(** The payload [sendCommand] hands to the write call. *)
Definition base64Command (command : list Z) : string :=
  toString_base64 (Buffer_from command).

(** *** Reading the framing back

    The component never decodes; the decoder below is the inverse that a
    receiver of the payload applies, and serves to state that the framing
    carries the raw bytes. *)

(** The value of a base64 character: its position in the alphabet. *)
Fixpoint position (c : ascii) (alphabet : list ascii) : option Z :=
  match alphabet with
  | [] => None
  | x :: rest => if Ascii.eqb x c then Some 0 else Z.succ <$> position c rest
  end.

Definition base64_value (c : ascii) : option Z := position c base64_alphabet.

Definition is_pad (c : ascii) : bool := Ascii.eqb c "="%char.

(** Four characters give three bytes, a padded last group one or two. *)
Fixpoint base64_decode (chars : list ascii) : option (list Z) :=
  match chars with
  | [] => Some []
  | c1 :: c2 :: c3 :: c4 :: rest =>
      s1 ← base64_value c1;
      s2 ← base64_value c2;
      let b1 := Z.lor (Z.shiftl s1 2) (Z.shiftr s2 4) in
      if is_pad c3 then
        if is_pad c4 && bool_decide (rest = []) then Some [b1] else None
      else
        s3 ← base64_value c3;
        let b2 := Z.lor (Z.shiftl (Z.land s2 15) 4) (Z.shiftr s3 2) in
        if is_pad c4 then
          if bool_decide (rest = []) then Some [b1; b2] else None
        else
          s4 ← base64_value c4;
          tail ← base64_decode rest;
          Some (b1 :: b2 :: Z.lor (Z.shiftl (Z.land s3 3) 6) s4 :: tail)
  | _ => None
  end.

(** The numbers [0 .. n-1], to check a property of bytes or of six-bit
    values on every one of them. *)
Definition below (n : nat) : list Z := Z.of_nat <$> seq 0 n.

Definition in_sextet (s : Z) : bool := Z.leb 0 s && Z.ltb s 64.

(** A six-bit value is read back from its character, which is not the pad. *)
Definition sextet_ok (s : Z) : bool :=
  bool_decide (base64_value (base64_char s) = Some s) && negb (is_pad (base64_char s)).

(** The second and third six-bit values of a group, which straddle bytes. *)
Definition s2_of (a b : Z) : Z := Z.lor (Z.shiftl (Z.land a 3) 4) (Z.shiftr b 4).
Definition s3_of (b c : Z) : Z := Z.lor (Z.shiftl (Z.land b 15) 2) (Z.shiftr c 6).

(** What splitting two neighbouring bytes into six-bit values and joining
    them again relies on. *)
Definition pair_ok (a b : Z) : bool :=
  in_sextet (Z.shiftr a 2) && in_sextet (s2_of a b) && in_sextet (Z.land b 63)
  && in_sextet (Z.shiftl (Z.land a 3) 4) && in_sextet (Z.shiftl (Z.land a 15) 2)
  && in_sextet (s3_of a b)
  && Z.eqb (Z.lor (Z.shiftl (Z.shiftr a 2) 2) (Z.shiftr (s2_of a b) 4)) a
  && Z.eqb (Z.lor (Z.shiftl (Z.shiftr a 2) 2) (Z.shiftr (Z.shiftl (Z.land a 3) 4) 4)) a
  && Z.eqb (Z.land (s2_of a b) 15) (Z.shiftr b 4)
  && Z.eqb (Z.shiftr (s3_of a b) 2) (Z.land a 15)
  && Z.eqb (Z.shiftr (Z.shiftl (Z.land a 15) 2) 2) (Z.land a 15)
  && Z.eqb (Z.lor (Z.shiftl (Z.shiftr a 4) 4) (Z.land a 15)) a
  && Z.eqb (Z.land (s3_of a b) 3) (Z.shiftr b 6)
  && Z.eqb (Z.lor (Z.shiftl (Z.shiftr b 6) 6) (Z.land b 63)) b.

Definition is_byte (b : Z) : Prop := 0 <= b < 256.

(** ** The outside world *)

Inductive Permission := BLUETOOTH_SCAN | BLUETOOTH_CONNECT | ACCESS_FINE_LOCATION.

#[global] Instance Permission_eq_dec : EqDecision Permission.
Proof. solve_decision. Defined.

(** [PermissionsAndroid.RESULTS]. *)
Inductive PermissionStatus := GRANTED | DENIED | NEVER_ASK_AGAIN.

#[global] Instance PermissionStatus_eq_dec : EqDecision PermissionStatus.
Proof. solve_decision. Defined.

(** The second argument of a [console.log] call. *)
Inductive Printed :=
| PName (n : option string)
| PBytes (command : list Z).

(** The calls the component makes to the platform, the BLE binding, the
    console and the alert dialog. *)
Inductive Effect :=
| RequestMultiple (permissions : list Permission)
| AlertAlert (title message : string)
| ConsoleLog (label : string) (arg : Printed)
| ConsoleError (label : option string) (error : JsError)
| StartDeviceScan
| StopDeviceScan
| SetTimeout (ms : Z)
| Connect (device : Device)
| DiscoverAllServicesAndCharacteristics (device : Device)
| CancelConnection (device : Device)
| WriteCharacteristicWithResponseForService
    (device : Device) (serviceUUID characteristicUUID valueBase64 : string).

(** What the platform and the BLE binding answer. Each handler awaits each
    of these at most once per call, so one answer per request describes
    every run of one call; two calls may be run against two adapters. *)
Record Adapter := mkAdapter {
  Platform_OS : string;
  requestMultiple : list Permission -> Completion (list (Permission * PermissionStatus));
  connect : Device -> Completion Device;
  discoverAllServicesAndCharacteristics : Device -> Completion unit;
  cancelConnection : Device -> Completion unit;
  writeCharacteristicWithResponseForService :
    Device -> string -> string -> string -> Completion unit;
}.

(** ** React state *)

Record SliderValues := mkSliderValues { motor : Z; pump : Z }.

(** The five [useState] cells. A handler reads the values its closure
    captured at render time ([render] below) and writes to the store. *)
Record Store := mkStore {
  isScanning : bool;
  connectedDevice : option Device;
  devices : list Device;
  sliderValues : SliderValues;
  breathingMode : bool;
}.

Definition initialStore : Store :=
  {| isScanning := false;
     connectedDevice := None;
     devices := [];
     sliderValues := {| motor := 0; pump := 0 |};
     breathingMode := false |}.

Record World := mkWorld {
  store : Store;
  trace : list Effect;   (* oldest first *)
}.

(** ** The monad of handlers *)

Definition M (A : Type) : Type := World -> Completion A * World.

Definition ret {A} (a : A) : M A := fun w => (Normal a, w).

Definition bind {A B} (m : M A) (k : A -> M B) : M B :=
  fun w =>
    match m w with
    | (Normal a, w') => k a w'
    | (Throw e, w') => (Throw e, w')
    end.

Definition throw {A} (e : JsError) : M A := fun w => (Throw e, w).

(** [try { body } catch (error) { handler }] *)
Definition try_catch {A} (body : M A) (handler : JsError -> M A) : M A :=
  fun w =>
    match body w with
    | (Normal a, w') => (Normal a, w')
    | (Throw e, w') => handler e w'
    end.

Declare Scope js_scope.
Delimit Scope js_scope with js.
Notation "'let*' x ':=' m 'in' k" := (bind m (fun x => k))
  (at level 10, x name, m at level 100, k at level 200) : js_scope.
Notation "m ';;;' k" := (bind m (fun _ => k))
  (at level 100, k at level 200, right associativity) : js_scope.
Local Open Scope js_scope.

Definition emit (e : Effect) : M unit :=
  fun w => (Normal tt, {| store := store w; trace := trace w ++ [e] |}).

(** [await] of a call into the outside world: the call is recorded, then
    the handler continues with what the call settled to. *)
Definition await {A} (call : Effect) (settled : Completion A) : M A :=
  fun w => (settled, {| store := store w; trace := trace w ++ [call] |}).

Definition setState (f : Store -> Store) : M unit :=
  fun w => (Normal tt, {| store := f (store w); trace := trace w |}).

Definition setIsScanning (v : bool) : M unit :=
  setState (fun s => {| isScanning := v; connectedDevice := connectedDevice s;
                        devices := devices s; sliderValues := sliderValues s;
                        breathingMode := breathingMode s |}).

Definition setConnectedDevice (v : option Device) : M unit :=
  setState (fun s => {| isScanning := isScanning s; connectedDevice := v;
                        devices := devices s; sliderValues := sliderValues s;
                        breathingMode := breathingMode s |}).

(** [setDevices] with an updater function, which React applies to the
    latest value of the cell. *)
Definition setDevicesWith (f : list Device -> list Device) : M unit :=
  setState (fun s => {| isScanning := isScanning s; connectedDevice := connectedDevice s;
                        devices := f (devices s); sliderValues := sliderValues s;
                        breathingMode := breathingMode s |}).

Definition setDevices (v : list Device) : M unit := setDevicesWith (fun _ => v).

Definition setBreathingMode (v : bool) : M unit :=
  setState (fun s => {| isScanning := isScanning s; connectedDevice := connectedDevice s;
                        devices := devices s; sliderValues := sliderValues s;
                        breathingMode := v |}).

Definition Alert_alert (title message : string) : M unit := emit (AlertAlert title message).
Definition console_log (label : string) (arg : Printed) : M unit := emit (ConsoleLog label arg).
Definition console_error (label : option string) (error : JsError) : M unit :=
  emit (ConsoleError label error).

(** ** The handlers of [DeviceControl] *)

Section DeviceControl.

(** What the outside world answers during this call. *)
Variable adapter : Adapter.

(** The state values captured by the closures of the current render. *)
Variable render : Store.

Definition requested_permissions : list Permission :=
  [BLUETOOTH_SCAN; BLUETOOTH_CONNECT; ACCESS_FINE_LOCATION].

Definition requestPermissions : M bool :=
  if Platform_OS adapter === "android" then
    let* permissions :=
      await (RequestMultiple requested_permissions)
            (requestMultiple adapter requested_permissions) in
    ret (forallb (fun status => status === GRANTED) (permissions.*2))
  else ret true.

(** The listener handed to [manager.startDeviceScan]: it is called with an
    error, or with a device. *)
Inductive ScanEvent :=
| ScanError (error : JsError)
| Advertisement (device : Device).

(** [prevDevices.find((d) => d.id === device.id)] *)
Definition find_by_id (prevDevices : list Device) (device : Device) : option Device :=
  List.find (fun d => id d === id device) prevDevices.

(** The updater of the scan listener. *)
Definition addDevice (device : Device) (prevDevices : list Device) : list Device :=
  match find_by_id prevDevices device with
  | None => prevDevices ++ [device]
  | Some _ => prevDevices
  end.

Definition scanListener (event : ScanEvent) : M unit :=
  match event with
  | ScanError error =>
      console_error None error ;;;
      setIsScanning false
  | Advertisement device =>
      if name device === Some "SYNC" then setDevicesWith (addDevice device)
      else ret tt
  end.

(** The callback of [setTimeout(..., 5000)]. *)
Definition scanTimeout : M unit :=
  emit StopDeviceScan ;;;
  setIsScanning false.

Definition startScan : M unit :=
  let* permissionGranted := requestPermissions in
  if negb permissionGranted then
    Alert_alert "Error" "Bluetooth permissions are required to continue"
  else if isScanning render then ret tt
  else
    setIsScanning true ;;;
    setDevices [] ;;;
    emit StartDeviceScan ;;;
    emit (SetTimeout 5000).

Definition connectToDevice (device : Device) : M unit :=
  try_catch
    (console_log "Connecting to device:" (PName (name device)) ;;;
     let* connectedDevice := await (Connect device) (connect adapter device) in
     await (DiscoverAllServicesAndCharacteristics connectedDevice)
           (discoverAllServicesAndCharacteristics adapter connectedDevice) ;;;
     setConnectedDevice (Some connectedDevice) ;;;
     Alert_alert "Success" ("Connected to device " ++ template (name device)))
    (fun error =>
       console_error (Some "Connection error:") error ;;;
       Alert_alert "Error" "Failed to connect to device").

Definition disconnectDevice : M unit :=
  match connectedDevice render with
  | Some connected =>
      await (CancelConnection connected) (cancelConnection adapter connected) ;;;
      setConnectedDevice None ;;;
      Alert_alert "Success" "Device disconnected successfully"
  | None => ret tt
  end.

Definition sendCommand (command : list Z) : M unit :=
  match connectedDevice render with
  | None => Alert_alert "Error" "Please connect to a device first"
  | Some connected =>
      try_catch
        (let base64Command := base64Command command in
         await (WriteCharacteristicWithResponseForService connected
                  BLE_CONFIG.SERVICE_UUID BLE_CONFIG.WRITE_CHARACTERISTIC base64Command)
               (writeCharacteristicWithResponseForService adapter connected
                  BLE_CONFIG.SERVICE_UUID BLE_CONFIG.WRITE_CHARACTERISTIC base64Command) ;;;
         console_log "Command sent:" (PBytes command))
        (fun error =>
           console_error (Some "Send command error:") error ;;;
           Alert_alert "Error" "Failed to send command")
  end.

Definition toggleBreathingMode : M unit :=
  try_catch
    ((if breathingMode render
      then sendCommand (motor_command "STOP_BREATHING")
      else sendCommand (motor_command "START_BREATHING")) ;;;
     setBreathingMode (negb (breathingMode render)))
    (fun error => Alert_alert "Error" "Failed to toggle breathing mode").

End DeviceControl.

(** The scan listener run on a sequence of events, in order of delivery. *)
Fixpoint deliver (events : list ScanEvent) : M unit :=
  match events with
  | [] => ret tt
  | event :: rest => scanListener event ;;; deliver rest
  end.

(** ** Observing a run *)

(** How the call settled, and the world it left. *)
Definition settled {A} (m : M A) (w : World) : Completion A := (m w).1.
Definition exec {A} (m : M A) (w : World) : World := (m w).2.

(** The part of the trace a run has added. *)
Definition added (before after : World) : list Effect :=
  drop (length (trace before)) (trace after).

Definition is_write (e : Effect) : bool :=
  match e with
  | WriteCharacteristicWithResponseForService _ _ _ _ => true
  | _ => false
  end.

Definition starts_scan (e : Effect) : bool :=
  match e with
  | StartDeviceScan | SetTimeout _ => true
  | _ => false
  end.

(** The one request [sendCommand] makes of a connected peripheral, and
    what the peripheral answers to it. *)
Definition write_request (command : list Z) (connected : Device) : Effect :=
  WriteCharacteristicWithResponseForService connected
    BLE_CONFIG.SERVICE_UUID BLE_CONFIG.WRITE_CHARACTERISTIC (base64Command command).

Definition write_answer (adapter : Adapter) (command : list Z) (connected : Device)
  : Completion unit :=
  writeCharacteristicWithResponseForService adapter connected
    BLE_CONFIG.SERVICE_UUID BLE_CONFIG.WRITE_CHARACTERISTIC (base64Command command).

(** The first failure of the two awaited steps of [connectToDevice], if any. *)
Definition connection_failure (adapter : Adapter) (device : Device) : option JsError :=
  match connect adapter device with
  | Throw reason => Some reason
  | Normal connected =>
      match discoverAllServicesAndCharacteristics adapter connected with
      | Throw reason => Some reason
      | Normal _ => None
      end
  end.

(** What the scan listener has done to the device list, event by event. *)
Definition registry_step (known : list Device) (event : ScanEvent) : list Device :=
  match event with
  | ScanError _ => known
  | Advertisement device =>
      if name device === Some "SYNC" then addDevice device known else known
  end.

(** The device list a scan keeps: one entry per id, every entry advertised
    under the target name. *)
Definition registry_ok (known : list Device) : Prop :=
  NoDup (id <$> known) /\ Forall (fun d => name d = Some "SYNC") known.

(** The list after a scan that was started and then received [events]. *)
Definition discovered (adapter : Adapter) (render : Store) (w : World)
    (events : list ScanEvent) : list Device :=
  devices (store (exec (startScan adapter render ;;; deliver events) w)).

(** ** Sample worlds *)

Definition sync_A : Device := {| id := "AA:01"; name := Some "SYNC" |}.
Definition other_B : Device := {| id := "BB:02"; name := Some "OTHER" |}.
Definition lower_C : Device := {| id := "CC:03"; name := Some "sync" |}.

(** An Android phone that grants everything, with a peripheral that
    acknowledges every request. *)
Definition willing_adapter : Adapter :=
  {| Platform_OS := "android";
     requestMultiple := fun permissions => Normal ((fun p => (p, GRANTED)) <$> permissions);
     connect := fun device => Normal device;
     discoverAllServicesAndCharacteristics := fun _ => Normal tt;
     cancelConnection := fun _ => Normal tt;
     writeCharacteristicWithResponseForService := fun _ _ _ _ => Normal tt |}.

(** An Android phone whose user denies the location permission, with a
    peripheral that rejects every request. *)
Definition failing_adapter : Adapter :=
  {| Platform_OS := "android";
     requestMultiple := fun permissions =>
       Normal ((fun p => (p, if p === ACCESS_FINE_LOCATION then DENIED else GRANTED)) <$> permissions);
     connect := fun _ => Throw "Device disconnected";
     discoverAllServicesAndCharacteristics := fun _ => Throw "Device disconnected";
     cancelConnection := fun _ => Throw "Device not connected";
     writeCharacteristicWithResponseForService := fun _ _ _ _ => Throw "Characteristic write failed" |}.

(** Connects, then fails to enumerate the services. *)
Definition half_adapter : Adapter :=
  {| Platform_OS := "ios";
     requestMultiple := fun _ => Normal [];
     connect := fun device => Normal device;
     discoverAllServicesAndCharacteristics := fun _ => Throw "Services discovery failed";
     cancelConnection := fun _ => Normal tt;
     writeCharacteristicWithResponseForService := fun _ _ _ _ => Normal tt |}.

Definition connectedStore : Store :=
  {| isScanning := false;
     connectedDevice := Some sync_A;
     devices := [sync_A];
     sliderValues := {| motor := 0; pump := 0 |};
     breathingMode := false |}.

Definition scanningStore : Store :=
  {| isScanning := true;
     connectedDevice := None;
     devices := [sync_A];
     sliderValues := {| motor := 0; pump := 0 |};
     breathingMode := false |}.

Definition world_of (s : Store) : World := {| store := s; trace := [] |}.

(** ** The rest of the component *)

(** *** The motor slider *)

(** [Math.round] of a finite number: the nearest integer, a tie going up. *)
Definition Math_round (value : Q) : Z := Qfloor (value + (1 # 2))%Q.

(** [setSliderValues] with an updater function. *)
Definition setSliderValuesWith (f : SliderValues -> SliderValues) : M unit :=
  setState (fun s => {| isScanning := isScanning s; connectedDevice := connectedDevice s;
                        devices := devices s; sliderValues := f (sliderValues s);
                        breathingMode := breathingMode s |}).

(** [onSlidingComplete] of the motor slider. *)
Definition onSlidingComplete (value : Q) : M unit :=
  setSliderValuesWith (fun prev => {| motor := Math_round value; pump := pump prev |}).

(** *** The effect clean-up

    The function [useEffect] returns: it is synchronous, sets no state, and
    does not await the cancel request it makes. *)
Inductive CleanupCall :=
| SubscriptionRemove
| CancelConnectionUnawaited (device : Device).

Definition effectCleanup (render : Store) : list CleanupCall :=
  SubscriptionRemove
  :: match connectedDevice render with
     | Some connected => [CancelConnectionUnawaited connected]
     | None => []
     end.

(** *** What is rendered, and what a press does *)

Definition scanLabel (render : Store) : string :=
  if isScanning render then "Scanning..." else "Scan".

Definition breathingIcon (render : Store) : string :=
  if breathingMode render then "pause" else "play-arrow".

Definition breathingLabel (render : Store) : string :=
  (if breathingMode render then "Stop" else "Start") ++ " Breathing".

(** The [key] of each rendered device item. *)
Definition deviceKeys (render : Store) : list string := id <$> devices render.

Inductive Press :=
| PressScan
| PressDisconnect
| PressDevice (index : nat)
| PressBreathing.

(** A press reaches [onPress] when the [Pressable] is rendered and not
    disabled: the scan button is disabled while scanning, the disconnect
    button is rendered only with a connected device, the device items are
    disabled with a connected device. *)
Definition onPress (adapter : Adapter) (render : Store) (press : Press) : M unit :=
  match press with
  | PressScan =>
      if isScanning render then ret tt else startScan adapter render
  | PressDisconnect =>
      match connectedDevice render with
      | Some _ => disconnectDevice adapter render
      | None => ret tt
      end
  | PressDevice index =>
      match devices render !! index with
      | Some device =>
          match connectedDevice render with
          | Some _ => ret tt
          | None => connectToDevice adapter device
          end
      | None => ret tt
      end
  | PressBreathing => toggleBreathingMode adapter render
  end.

(** *** Sessions

    Everything that can happen to the screen: a press, a call of the scan
    listener, the scan timer, a slider release. Each runs against the
    adapter's answers of the moment and in the closure of some render. *)
Inductive UserEvent :=
| Pressed (press : Press)
| Scanned (event : ScanEvent)
| TimedOut
| Slid (value : Q).

Definition react (adapter : Adapter) (render : Store) (event : UserEvent) : M unit :=
  match event with
  | Pressed press => onPress adapter render press
  | Scanned event => scanListener event
  | TimedOut => scanTimeout
  | Slid value => onSlidingComplete value
  end.

Fixpoint session (steps : list (Adapter * Store * UserEvent)) (w : World) : World :=
  match steps with
  | [] => w
  | (adapter, render, event) :: rest => session rest (exec (react adapter render event) w)
  end.

(** A write that goes to the write characteristic of the service and carries
    one of the two breathing commands. *)
Definition breathing_write (e : Effect) : Prop :=
  match e with
  | WriteCharacteristicWithResponseForService _ service characteristic payload =>
      service = BLE_CONFIG.SERVICE_UUID
      /\ characteristic = BLE_CONFIG.WRITE_CHARACTERISTIC
      /\ (payload = base64Command (motor_command "START_BREATHING")
          \/ payload = base64Command (motor_command "STOP_BREATHING"))
  | _ => True
  end.

(** Every scan that was started has its five-second timer set right after. *)
Definition time_boxed (calls : list Effect) : Prop :=
  forall before after,
    calls = before ++ StartDeviceScan :: after ->
    exists rest, after = SetTimeout 5000 :: rest.

Definition is_cancel (e : Effect) : bool :=
  match e with
  | CancelConnection _ => true
  | _ => false
  end.

Definition is_error_event (event : ScanEvent) : bool :=
  match event with
  | ScanError _ => true
  | Advertisement _ => false
  end.

(** The errors among the events, as the listener logs them. *)
Definition logged_errors (events : list ScanEvent) : list Effect :=
  omap (fun event => match event with
                     | ScanError error => Some (ConsoleError None error)
                     | Advertisement _ => None
                     end) events.

(** *** Relating the world before a run to the world after *)

(** The run has added calls that all satisfy [P], and has taken the store
    to one related by [Q]. *)
Definition advances (P : Effect -> Prop) (Q : relation Store) : relation World :=
  fun w w' =>
    (exists new, trace w' = trace w ++ new /\ Forall P new) /\ Q (store w) (store w').

(** Every run of [m] relates the world it started in to the world it left,
    however it settles. *)
Definition preserves {A} (R : relation World) (m : M A) : Prop :=
  forall w, R w (exec m w).

(** The cells two stores agree on. *)
Definition same {X} (cell : Store -> X) : relation Store :=
  fun s s' => cell s' = cell s.

Definition any_call : Effect -> Prop := fun _ => True.
Definition any_store : relation Store := fun _ _ => True.

Definition both (Q1 Q2 : relation Store) : relation Store :=
  fun s s' => Q1 s s' /\ Q2 s s'.

(** The device list stays one a scan could have made. *)
Definition keeps_registry : relation Store :=
  fun s s' => registry_ok (devices s) -> registry_ok (devices s').

(** Kinds of calls. *)
Definition is_report (e : Effect) : bool :=
  match e with
  | AlertAlert _ _ | ConsoleLog _ _ | ConsoleError _ _ => true
  | _ => false
  end.

Definition is_connect (e : Effect) : bool :=
  match e with
  | Connect _ | DiscoverAllServicesAndCharacteristics _ => true
  | _ => false
  end.

Definition is_permission_request (e : Effect) : bool :=
  match e with
  | RequestMultiple _ => true
  | _ => false
  end.

Definition is_stop (e : Effect) : bool :=
  match e with
  | StopDeviceScan => true
  | _ => false
  end.

(** An Android phone whose permission dialog fails. *)
Definition crashing_adapter : Adapter :=
  {| Platform_OS := "android";
     requestMultiple := fun _ => Throw "Permission request failed";
     connect := fun device => Normal device;
     discoverAllServicesAndCharacteristics := fun _ => Normal tt;
     cancelConnection := fun _ => Normal tt;
     writeCharacteristicWithResponseForService := fun _ _ _ _ => Normal tt |}.

Definition sync_D : Device := {| id := "DD:04"; name := Some "SYNC" |}.

(** * Properties *)

(** ** The monad *)

Create HintDb js discriminated.
#[local] Hint Unfold settled exec ret bind throw try_catch emit await setState
  setIsScanning setConnectedDevice setDevicesWith setDevices setBreathingMode
  Alert_alert console_log console_error : js.

(** Unfold the monad down to pairs of a completion and a world. *)
Ltac js_unfold := autounfold with js in *; cbn [fst snd store trace] in *.

Lemma bind_normal {A B} (m : M A) (k : A -> M B) w a :
  settled m w = Normal a ->
  bind m k w = k a (exec m w).
Proof.
  unfold settled, exec, bind. destruct (m w) as [[a'|e] w']; cbn; congruence.
Qed.

Lemma bind_throw {A B} (m : M A) (k : A -> M B) w e :
  settled m w = Throw e ->
  bind m k w = (Throw e, exec m w).
Proof.
  unfold settled, exec, bind. destruct (m w) as [[a'|e'] w']; cbn; congruence.
Qed.

Lemma added_app w w' new :
  trace w' = trace w ++ new -> added w w' = new.
Proof. unfold added. intros ->. by rewrite drop_app_length. Qed.

Lemma last_app_two {A} (l : list A) x y : last (l ++ [x; y]) = Some y.
Proof. change [x; y] with ([x] ++ [y]). rewrite app_assoc. apply last_snoc. Qed.

(** ** Command codec *)

Lemma MOTOR_COMMANDS_rows_NoDup : NoDup (MOTOR_COMMANDS_rows.*1).
Proof. apply (bool_decide_unpack _). by vm_compute. Qed.

Lemma MOTOR_COMMANDS_to_list : map_to_list MOTOR_COMMANDS ≡ₚ MOTOR_COMMANDS_rows.
Proof. apply map_to_list_to_map, MOTOR_COMMANDS_rows_NoDup. Qed.

Lemma MOTOR_COMMANDS_lookup key bytes :
  MOTOR_COMMANDS !! key = Some bytes <-> (key, bytes) ∈ MOTOR_COMMANDS_rows.
Proof.
  unfold MOTOR_COMMANDS. symmetry.
  apply elem_of_list_to_map, MOTOR_COMMANDS_rows_NoDup.
Qed.

(** Every stored command is a sequence of two or three bytes. *)
Lemma MOTOR_COMMANDS_bytes :
  map_Forall (fun _ bytes => Forall (fun b => 0 <= b < 256) bytes
                             /\ (2 <= length bytes <= 3)%nat) MOTOR_COMMANDS.
Proof.
  apply map_Forall_to_list. rewrite MOTOR_COMMANDS_to_list.
  unfold MOTOR_COMMANDS_rows. repeat constructor; cbn; lia.
Qed.

(** The commands the table defines are exactly the five it lists. *)
Lemma MOTOR_COMMANDS_dom :
  dom MOTOR_COMMANDS
    = list_to_set ["FORWARD"; "REVERSE"; "STOP"; "START_BREATHING"; "STOP_BREATHING"].
Proof.
  apply set_eq. intros key.
  rewrite elem_of_dom, elem_of_list_to_set. unfold is_Some.
  setoid_rewrite MOTOR_COMMANDS_lookup. unfold MOTOR_COMMANDS_rows.
  repeat setoid_rewrite elem_of_cons. setoid_rewrite elem_of_nil.
  split.
  - intros [bytes H]. destruct_or!; simplify_eq; tauto.
  - intros H. destruct_or!; subst; eauto 10.
Qed.

(** C3. The command table maps each of its five commands to one fixed byte
    sequence: FORWARD to 01 03, REVERSE to 01 01, STOP to 01 00,
    START_BREATHING to 01 01 01 and STOP_BREATHING to 01 00 01; these five
    are all the commands it defines, and looking one up gives the same
    bytes as the property access the handlers use. *)
Theorem MOTOR_COMMANDS_table :
  MOTOR_COMMANDS !! "FORWARD" = Some [0x01; 0x03] /\
  MOTOR_COMMANDS !! "REVERSE" = Some [0x01; 0x01] /\
  MOTOR_COMMANDS !! "STOP" = Some [0x01; 0x00] /\
  MOTOR_COMMANDS !! "START_BREATHING" = Some [0x01; 0x01; 0x01] /\
  MOTOR_COMMANDS !! "STOP_BREATHING" = Some [0x01; 0x00; 0x01] /\
  dom MOTOR_COMMANDS
    = list_to_set ["FORWARD"; "REVERSE"; "STOP"; "START_BREATHING"; "STOP_BREATHING"] /\
  size MOTOR_COMMANDS = 5%nat /\
  motor_command "START_BREATHING" = [0x01; 0x01; 0x01] /\
  motor_command "STOP_BREATHING" = [0x01; 0x00; 0x01].
Proof.
  repeat split; first [ apply MOTOR_COMMANDS_dom | by apply MOTOR_COMMANDS_lookup; set_solver | reflexivity ].
Qed.

(** ** Transport framing *)

Lemma forallb_below n (P : Z -> bool) :
  forallb P (below n) = true -> forall x, 0 <= x < Z.of_nat n -> P x = true.
Proof.
  intros H x Hx. rewrite forallb_forall in H. apply H.
  unfold below. apply list_elem_of_In, list_elem_of_fmap. exists (Z.to_nat x).
  split; [lia|]. apply list_elem_of_In, in_seq. lia.
Qed.

Lemma sextets_ok s : 0 <= s < 64 -> base64_value (base64_char s) = Some s /\ is_pad (base64_char s) = false.
Proof.
  intros Hs. pose proof (forallb_below 64 sextet_ok ltac:(by vm_compute) s Hs) as H.
  unfold sextet_ok in H. apply andb_true_iff in H as [H1 H2].
  apply bool_decide_eq_true in H1. by apply negb_true_iff in H2.
Qed.

Lemma pairs_ok a b : 0 <= a < 256 -> 0 <= b < 256 -> pair_ok a b = true.
Proof.
  intros Ha Hb.
  pose proof (forallb_below 256 (fun a => forallb (pair_ok a) (below 256))
                ltac:(by vm_compute) a Ha) as H.
  cbv beta in H. exact (forallb_below 256 (pair_ok a) H b Hb).
Qed.

Lemma in_sextet_spec s : in_sextet s = true -> 0 <= s < 64.
Proof. unfold in_sextet. rewrite andb_true_iff, Z.leb_le, Z.ltb_lt. done. Qed.

Lemma value_char s :
  in_sextet s = true ->
  base64_value (base64_char s) = Some s /\ is_pad (base64_char s) = false.
Proof. intros H. by apply sextets_ok, in_sextet_spec. Qed.

Ltac pair_facts a b Ha Hb :=
  let H := fresh "H" in
  pose proof (pairs_ok a b Ha Hb) as H;
  unfold pair_ok in H; rewrite !andb_true_iff, !Z.eqb_eq in H;
  destruct_and!.

(** Decoding one encoded group. *)
Lemma base64_decode_one a :
  is_byte a -> base64_decode (base64_chars [a]) = Some [a].
Proof.
  intros Ha. pair_facts a a Ha Ha. cbn [base64_chars base64_decode].
  destruct (value_char (Z.shiftr a 2)) as [-> _]; [done|].
  destruct (value_char (Z.shiftl (Z.land a 3) 4)) as [-> _]; [done|].
  cbn -[Z.lor Z.shiftl Z.shiftr Z.land]. congruence.
Qed.

Lemma base64_decode_two a b :
  is_byte a -> is_byte b -> base64_decode (base64_chars [a; b]) = Some [a; b].
Proof.
  intros Ha Hb. pair_facts a b Ha Hb. pair_facts b b Hb Hb. cbn [base64_chars base64_decode].
  fold (s2_of a b).
  destruct (value_char (Z.shiftr a 2)) as [-> _]; [done|].
  destruct (value_char (s2_of a b)) as [-> _]; [done|].
  destruct (value_char (Z.shiftl (Z.land b 15) 2)) as [-> ->]; [done|].
  cbn -[Z.lor Z.shiftl Z.shiftr Z.land]. congruence.
Qed.

Lemma base64_decode_three a b c rest :
  is_byte a -> is_byte b -> is_byte c ->
  base64_decode (base64_chars (a :: b :: c :: rest))
  = (fun tail => a :: b :: c :: tail) <$> base64_decode (base64_chars rest).
Proof.
  intros Ha Hb Hc. pair_facts a b Ha Hb. pair_facts b c Hb Hc. pair_facts b b Hb Hb.
  cbn [base64_chars base64_decode].
  fold (s2_of a b) (s3_of b c).
  destruct (value_char (Z.shiftr a 2)) as [-> _]; [done|].
  destruct (value_char (s2_of a b)) as [-> _]; [done|].
  destruct (value_char (s3_of b c)) as [-> ->]; [done|].
  destruct (value_char (Z.land c 63)) as [-> ->]; [done|].
  cbn -[Z.lor Z.shiftl Z.shiftr Z.land base64_chars base64_decode].
  destruct (base64_decode (base64_chars rest)) as [tail|]; cbn; [|done].
  do 2 f_equal; [congruence|]. f_equal; [congruence|]. f_equal. congruence.
Qed.

Lemma base64_decode_chars bytes :
  Forall is_byte bytes -> base64_decode (base64_chars bytes) = Some bytes.
Proof.
  enough (H : forall rest, Forall is_byte rest ->
            base64_decode (base64_chars rest) = Some rest
            /\ (forall a, is_byte a -> base64_decode (base64_chars (a :: rest)) = Some (a :: rest))
            /\ (forall a b, is_byte a -> is_byte b ->
                  base64_decode (base64_chars (a :: b :: rest)) = Some (a :: b :: rest)))
    by (intros Hb; by apply H).
  induction 1 as [|c rest Hc Hrest (IH0 & IH1 & IH2)].
  - split_and!; [done | apply base64_decode_one | apply base64_decode_two].
  - split_and!; [by apply IH1 | intros; by apply IH2 |].
    intros a b Ha Hb. rewrite base64_decode_three by done. by rewrite IH0.
Qed.

Lemma Buffer_from_bytes array : Forall is_byte (Buffer_from array).
Proof.
  unfold Buffer_from. apply Forall_fmap, Forall_true. intros x. unfold is_byte. cbn.
  change 255 with (Z.ones 8). rewrite Z.land_ones by lia. apply Z.mod_pos_bound. lia.
Qed.

Lemma Buffer_from_id array : Forall is_byte array -> Buffer_from array = array.
Proof.
  unfold Buffer_from. induction 1 as [|x array Hx _ IH]; cbn; [done|]. f_equal; [|done].
  change 255 with (Z.ones 8). rewrite Z.land_ones by lia. apply Z.mod_small. exact Hx.
Qed.

(** The five payloads that reach the peripheral. *)
Example MOTOR_COMMANDS_payloads :
  (fun row => (row.1, base64Command row.2)) <$> MOTOR_COMMANDS_rows
  = [("FORWARD", "AQM="); ("REVERSE", "AQE="); ("STOP", "AQA=");
     ("START_BREATHING", "AQEB"); ("STOP_BREATHING", "AQAB")].
Proof. reflexivity. Qed.

(** Text that is not base64 is not read as bytes. *)
Example base64_decode_rejects :
  base64_decode (list_ascii_of_string "AQM") = None
  /\ base64_decode (list_ascii_of_string "A=M=") = None.
Proof. split; reflexivity. Qed.

(** ** sendCommand *)

Section SendCommand.

Variables (adapter : Adapter) (render : Store) (command : list Z) (w : World).

#[local] Abbreviation write_request := (write_request command).
#[local] Abbreviation write_answer := (write_answer adapter command).

Lemma sendCommand_disconnected :
  connectedDevice render = None ->
  sendCommand adapter render command w
  = (Normal tt,
     {| store := store w;
        trace := trace w ++ [AlertAlert "Error" "Please connect to a device first"] |}).
Proof. intros H. unfold sendCommand. rewrite H. reflexivity. Qed.

Lemma sendCommand_acknowledged connected :
  connectedDevice render = Some connected ->
  write_answer connected = Normal tt ->
  sendCommand adapter render command w
  = (Normal tt,
     {| store := store w;
        trace := trace w ++ [write_request connected;
                             ConsoleLog "Command sent:" (PBytes command)] |}).
Proof.
  intros H Hack. unfold sendCommand. rewrite H.
  unfold write_answer in Hack. js_unfold. rewrite Hack. cbn.
  by rewrite <- app_assoc.
Qed.

Lemma sendCommand_rejected connected reason :
  connectedDevice render = Some connected ->
  write_answer connected = Throw reason ->
  sendCommand adapter render command w
  = (Normal tt,
     {| store := store w;
        trace := trace w ++ [write_request connected;
                             ConsoleError (Some "Send command error:") reason;
                             AlertAlert "Error" "Failed to send command"] |}).
Proof.
  intros H Hrej. unfold sendCommand. rewrite H.
  unfold write_answer in Hrej. js_unfold. rewrite Hrej. cbn.
  by rewrite <- !app_assoc.
Qed.

(** Whatever the closure and the adapter, the call resolves, and it never
    touches the store. *)
Lemma sendCommand_resolves :
  settled (sendCommand adapter render command) w = Normal tt
  /\ store (exec (sendCommand adapter render command) w) = store w.
Proof.
  destruct (connectedDevice render) as [connected|] eqn:H.
  - destruct (write_answer connected) as [[]|reason] eqn:Hw.
    + unfold settled, exec. by rewrite (sendCommand_acknowledged _ H Hw).
    + unfold settled, exec. by rewrite (sendCommand_rejected _ _ H Hw).
  - unfold settled, exec. by rewrite (sendCommand_disconnected H).
Qed.

End SendCommand.

(** C5. Sent with no connected device, a command is not written: the call
    reports "Please connect to a device first" in an error alert (the
    NotConnected failure of the session), makes no request of the adapter
    and leaves the whole store, the connected-device reference included, as
    it was. *)
Theorem sendCommand_not_connected adapter render command w :
  connectedDevice render = None ->
  let w' := exec (sendCommand adapter render command) w in
  added w w' = [AlertAlert "Error" "Please connect to a device first"]
  /\ filter is_write (added w w') = []
  /\ store w' = store w.
Proof.
  intros H w'. subst w'. unfold exec.
  rewrite (sendCommand_disconnected adapter render command w H). cbn [snd store trace].
  rewrite (added_app w _ [AlertAlert "Error" "Please connect to a device first"]) by done.
  done.
Qed.

Lemma sendCommand_not_connected_witness :
  let w' := exec (sendCommand failing_adapter initialStore [0x01; 0x03]) (world_of initialStore) in
  connectedDevice initialStore = None
  /\ added (world_of initialStore) w' = [AlertAlert "Error" "Please connect to a device first"]
  /\ filter is_write (added (world_of initialStore) w') = []
  /\ store w' = initialStore.
Proof.
  split; [reflexivity|].
  apply (sendCommand_not_connected failing_adapter initialStore [0x01; 0x03]
           (world_of initialStore)).
  reflexivity.
Defined.

(** C4 as stated does not hold: with a connected device and an adapter that
    rejects the write, [sendCommand] resolves with the very value it resolves
    with after an acknowledged write, so the call returns as on success
    although the peripheral has acknowledged nothing. *)
Lemma sendCommand_returns_without_acknowledgment :
  let call adapter :=
    settled (sendCommand adapter connectedStore [0x01; 0x03]) (world_of connectedStore) in
  connectedDevice connectedStore = Some sync_A
  /\ write_answer failing_adapter [0x01; 0x03] sync_A = Throw "Characteristic write failed"
  /\ write_answer willing_adapter [0x01; 0x03] sync_A = Normal tt
  /\ call failing_adapter = Normal tt
  /\ call failing_adapter = call willing_adapter
  /\ ~ (call failing_adapter = Normal tt ->
        write_answer failing_adapter [0x01; 0x03] sync_A = Normal tt).
Proof.
  cbn zeta. split_and!; try reflexivity.
  intros Hclaim. specialize (Hclaim eq_refl). discriminate Hclaim.
Qed.

(** C4, amended. Sent with a connected device, a command makes exactly one
    request of the adapter: a write-with-response to characteristic
    0000ff03-... of service 000000ff-..., carrying the base64 text of the
    command's bytes (text that decodes to those bytes). The request comes
    first and its outcome is awaited: success ("Command sent") is reported
    after it, and only when the peripheral has acknowledged the write; when
    the write is rejected, "Failed to send command" is reported instead. The
    call itself resolves in both cases, so that its return does not tell an
    acknowledged write from a rejected one. The store is left as it was. *)
Theorem sendCommand_writes_once adapter render command w connected :
  connectedDevice render = Some connected ->
  let w' := exec (sendCommand adapter render command) w in
  let payload := toString_base64 (Buffer_from command) in
  let request :=
    WriteCharacteristicWithResponseForService connected
      "000000ff-0000-1000-8000-00805f9b34fb" "0000ff03-0000-1000-8000-00805f9b34fb"
      payload in
  let sent := ConsoleLog "Command sent:" (PBytes command) in
  filter is_write (added w w') = [request]
  /\ head (added w w') = Some request
  /\ base64_decode (list_ascii_of_string payload) = Some (Buffer_from command)
  /\ (Forall is_byte command -> Buffer_from command = command)
  /\ (sent ∈ added w w' <-> write_answer adapter command connected = Normal tt)
  /\ (write_answer adapter command connected = Normal tt -> added w w' = [request; sent])
  /\ (forall reason,
        write_answer adapter command connected = Throw reason ->
        added w w' = [request;
                      ConsoleError (Some "Send command error:") reason;
                      AlertAlert "Error" "Failed to send command"])
  /\ settled (sendCommand adapter render command) w = Normal tt
  /\ store w' = store w.
Proof.
  intros H w' payload request sent. subst w'. unfold settled, exec.
  assert (Hframe : base64_decode (list_ascii_of_string payload) = Some (Buffer_from command)).
  { subst payload. unfold toString_base64. rewrite list_ascii_of_string_of_list_ascii.
    apply base64_decode_chars, Buffer_from_bytes. }
  destruct (write_answer adapter command connected) as [[]|reason] eqn:Hw.
  - rewrite (sendCommand_acknowledged adapter render command w connected H Hw).
    cbn [fst snd store trace].
    rewrite (added_app w _ [request; sent]) by done.
    split_and!; try done; [apply Buffer_from_id|].
    split; [done|]. intros _. set_solver.
  - rewrite (sendCommand_rejected adapter render command w connected reason H Hw).
    cbn [fst snd store trace].
    rewrite (added_app w _ [request; ConsoleError (Some "Send command error:") reason;
                            AlertAlert "Error" "Failed to send command"]) by done.
    split_and!; try done; [apply Buffer_from_id| |by intros ? [= <-]].
    split; [|done]. intros Hin. subst sent request.
    repeat (apply elem_of_cons in Hin as [Hin|Hin]; [discriminate|]).
    by apply elem_of_nil in Hin.
Qed.

Lemma sendCommand_writes_once_witness :
  let w' := exec (sendCommand willing_adapter connectedStore [0x01; 0x03])
                 (world_of connectedStore) in
  let request :=
    WriteCharacteristicWithResponseForService sync_A
      "000000ff-0000-1000-8000-00805f9b34fb" "0000ff03-0000-1000-8000-00805f9b34fb" "AQM=" in
  connectedDevice connectedStore = Some sync_A
  /\ filter is_write (added (world_of connectedStore) w') = [request]
  /\ added (world_of connectedStore) w' = [request; ConsoleLog "Command sent:" (PBytes [0x01; 0x03])]
  /\ settled (sendCommand willing_adapter connectedStore [0x01; 0x03])
       (world_of connectedStore) = Normal tt.
Proof.
  pose proof (sendCommand_writes_once willing_adapter connectedStore [0x01; 0x03]
                (world_of connectedStore) sync_A eq_refl)
    as (Hw & _ & _ & _ & _ & Hall & _ & Hs & _).
  split; [reflexivity|]. split; [exact Hw|]. split; [exact (Hall eq_refl) | exact Hs].
Defined.

(** C10. [sendCommand] never rejects: with or without a connected device,
    and whether the peripheral acknowledges the write or the adapter
    reports an error, the awaited call resolves with the same value, so
    the value tells its caller nothing about the write. *)
Theorem sendCommand_never_rejects adapter adapter' render command w :
  settled (sendCommand adapter render command) w = Normal tt
  /\ settled (sendCommand adapter' render command) w
     = settled (sendCommand adapter render command) w.
Proof.
  pose proof (sendCommand_resolves adapter render command w) as [H _].
  pose proof (sendCommand_resolves adapter' render command w) as [H' _].
  split; congruence.
Qed.

(** ** toggleBreathingMode *)

(** The [catch] of [toggleBreathingMode] is never entered, because the call
    it guards never rejects: the flag is always set to the opposite of the
    value the closure captured. *)
Lemma toggleBreathingMode_flips adapter render w :
  let w' := exec (toggleBreathingMode adapter render) w in
  settled (toggleBreathingMode adapter render) w = Normal tt
  /\ breathingMode (store w') = negb (breathingMode render)
  /\ AlertAlert "Error" "Failed to toggle breathing mode" ∉ added w w'.
Proof.
  set (command := if breathingMode render then motor_command "STOP_BREATHING"
                  else motor_command "START_BREATHING").
  assert (Hrun : toggleBreathingMode adapter render w
                 = setBreathingMode (negb (breathingMode render))
                     (exec (sendCommand adapter render command) w)).
  { unfold toggleBreathingMode, try_catch.
    replace (if breathingMode render
             then sendCommand adapter render (motor_command "STOP_BREATHING")
             else sendCommand adapter render (motor_command "START_BREATHING"))
      with (sendCommand adapter render command)
      by (subst command; by destruct (breathingMode render)).
    rewrite (bind_normal _ _ w tt) by apply sendCommand_resolves.
    reflexivity. }
  cbn zeta. unfold settled, exec at 1 2. rewrite Hrun. cbn.
  repeat split.
  destruct (connectedDevice render) as [connected|] eqn:Hc.
  - destruct (write_answer adapter command connected) as [[]|reason] eqn:Hw; unfold exec.
    + rewrite (sendCommand_acknowledged _ _ _ _ _ Hc Hw). cbn.
      erewrite added_app by done. set_solver.
    + rewrite (sendCommand_rejected _ _ _ _ _ _ Hc Hw). cbn.
      erewrite added_app by done. set_solver.
  - unfold exec. rewrite (sendCommand_disconnected _ _ _ _ Hc). cbn.
    erewrite added_app by done. set_solver.
Qed.

(** C1, at the input on which the code departs from it. The closure holds a
    connected device and [breathingMode = false]; the adapter rejects the
    write. [toggleBreathingMode] sends START_BREATHING and the failure is
    reported by [sendCommand], but the call then sets the flag to [true]. *)
Theorem toggleBreathingMode_failed_write_flips :
  connectedDevice connectedStore = Some sync_A
  /\ breathingMode connectedStore = false
  /\ write_answer failing_adapter (motor_command "START_BREATHING") sync_A
     = Throw "Characteristic write failed"
  /\ toggleBreathingMode failing_adapter connectedStore (world_of connectedStore)
     = (Normal tt,
        {| store := {| isScanning := false; connectedDevice := Some sync_A;
                       devices := [sync_A]; sliderValues := {| motor := 0; pump := 0 |};
                       breathingMode := true |};
           trace := [ WriteCharacteristicWithResponseForService sync_A
                        "000000ff-0000-1000-8000-00805f9b34fb"
                        "0000ff03-0000-1000-8000-00805f9b34fb" "AQEB";
                      ConsoleError (Some "Send command error:") "Characteristic write failed";
                      AlertAlert "Error" "Failed to send command" ] |}).
Proof. repeat split. Qed.

(** ** connectToDevice *)

Lemma connectToDevice_connected adapter device w connected :
  connect adapter device = Normal connected ->
  discoverAllServicesAndCharacteristics adapter connected = Normal tt ->
  connectToDevice adapter device w
  = (Normal tt,
     exec (setConnectedDevice (Some connected))
       {| store := store w;
          trace := trace w ++ [ConsoleLog "Connecting to device:" (PName (name device));
                               Connect device;
                               DiscoverAllServicesAndCharacteristics connected;
                               AlertAlert "Success"
                                 ("Connected to device " ++ template (name device))] |}).
Proof.
  intros Hc Hd. unfold connectToDevice. js_unfold. rewrite Hc. cbn. rewrite Hd. cbn.
  by rewrite <- !app_assoc.
Qed.

Lemma connectToDevice_failed adapter device w reason :
  connection_failure adapter device = Some reason ->
  exists attempted,
    connectToDevice adapter device w
    = (Normal tt,
       {| store := store w;
          trace := trace w ++ ConsoleLog "Connecting to device:" (PName (name device))
                     :: Connect device
                     :: attempted
                     ++ [ConsoleError (Some "Connection error:") reason;
                         AlertAlert "Error" "Failed to connect to device"] |})
    /\ Forall (fun e => exists connected,
                 e = DiscoverAllServicesAndCharacteristics connected) attempted.
Proof.
  unfold connection_failure, connectToDevice. js_unfold.
  destruct (connect adapter device) as [connected|e] eqn:Hc; cbn.
  - destruct (discoverAllServicesAndCharacteristics adapter connected) as [[]|e] eqn:Hd;
      [discriminate|].
    intros [= ->]. exists [DiscoverAllServicesAndCharacteristics connected]. cbn.
    split; [by rewrite <- !app_assoc | repeat constructor; eauto].
  - intros [= ->]. exists []. cbn.
    split; [by rewrite <- !app_assoc | constructor].
Qed.

(** C6. When the adapter's connect step or the enumeration step fails,
    [connectToDevice] reports "Failed to connect to device" in an error
    alert after logging the reason (the ConnectionFailed failure), never
    announces success, and leaves the store as it was: a connected-device
    reference that was unset stays unset. A following call, against an
    adapter whose two steps succeed, connects. *)
Theorem connectToDevice_failure_recovers adapter device w reason :
  connection_failure adapter device = Some reason ->
  let w' := exec (connectToDevice adapter device) w in
  settled (connectToDevice adapter device) w = Normal tt
  /\ store w' = store w
  /\ (connectedDevice (store w) = None -> connectedDevice (store w') = None)
  /\ ConsoleError (Some "Connection error:") reason ∈ added w w'
  /\ last (added w w') = Some (AlertAlert "Error" "Failed to connect to device")
  /\ (forall title message, AlertAlert title message ∈ added w w' -> title = "Error")
  /\ (forall adapter' device' connected,
        connect adapter' device' = Normal connected ->
        discoverAllServicesAndCharacteristics adapter' connected = Normal tt ->
        settled (connectToDevice adapter' device') w' = Normal tt
        /\ connectedDevice (store (exec (connectToDevice adapter' device') w'))
           = Some connected).
Proof.
  intros Hfail w'. subst w'.
  destruct (connectToDevice_failed adapter device w reason Hfail) as (attempted & Hrun & Hatt).
  unfold settled, exec. rewrite Hrun. cbn [fst snd store trace].
  erewrite added_app by done.
  split_and!; try done.
  - rewrite !elem_of_cons, elem_of_app, !elem_of_cons. tauto.
  - apply (last_app_two (_ :: _ :: attempted)).
  - intros title message.
    rewrite !elem_of_cons, elem_of_app, !elem_of_cons, elem_of_nil.
    intros [?|[?|[Hin|[?|[?|[]]]]]]; try discriminate; [|congruence].
    rewrite Forall_forall in Hatt. destruct (Hatt _ Hin) as [? ?]. discriminate.
  - intros adapter' device' connected Hc Hd.
    rewrite (connectToDevice_connected adapter' device' _ connected Hc Hd). done.
Qed.

Lemma connectToDevice_failure_recovers_witness :
  connection_failure half_adapter sync_A = Some "Services discovery failed"
  /\ store (exec (connectToDevice half_adapter sync_A) (world_of initialStore)) = initialStore
  /\ connectedDevice
       (store (exec (connectToDevice willing_adapter sync_A)
                 (exec (connectToDevice half_adapter sync_A) (world_of initialStore))))
     = Some sync_A.
Proof.
  pose proof (connectToDevice_failure_recovers half_adapter sync_A (world_of initialStore)
                "Services discovery failed" eq_refl) as (_ & Hs & _ & _ & _ & _ & Hnext).
  split; [reflexivity|]. split; [exact Hs|].
  exact (proj2 (Hnext willing_adapter sync_A sync_A eq_refl eq_refl)).
Defined.

(** ** disconnectDevice *)

Lemma disconnectDevice_disconnected adapter render w :
  connectedDevice render = None ->
  disconnectDevice adapter render w = (Normal tt, w).
Proof. intros H. unfold disconnectDevice. by rewrite H. Qed.

Lemma disconnectDevice_cancelled adapter render w connected :
  connectedDevice render = Some connected ->
  cancelConnection adapter connected = Normal tt ->
  disconnectDevice adapter render w
  = (Normal tt,
     exec (setConnectedDevice None)
       {| store := store w;
          trace := trace w ++ [CancelConnection connected;
                               AlertAlert "Success" "Device disconnected successfully"] |}).
Proof.
  intros H Hc. unfold disconnectDevice. rewrite H. js_unfold. rewrite Hc. cbn.
  by rewrite <- !app_assoc.
Qed.

(** The awaited cancel is not guarded: when it rejects, so does the handler,
    before it has reset the connected-device reference. *)
Lemma disconnectDevice_rejected adapter render w connected reason :
  connectedDevice render = Some connected ->
  cancelConnection adapter connected = Throw reason ->
  disconnectDevice adapter render w
  = (Throw reason,
     {| store := store w; trace := trace w ++ [CancelConnection connected] |}).
Proof.
  intros H Hc. unfold disconnectDevice. rewrite H. js_unfold. by rewrite Hc.
Qed.

(** C7 as stated does not hold: with a device connected and an adapter that
    rejects the cancel request, [disconnectDevice] rejects and the device
    is still recorded as connected. *)
Lemma disconnectDevice_cancel_rejected_keeps_device :
  let run := disconnectDevice failing_adapter connectedStore (world_of connectedStore) in
  connectedDevice connectedStore = Some sync_A
  /\ cancelConnection failing_adapter sync_A = Throw "Device not connected"
  /\ run.1 = Throw "Device not connected"
  /\ connectedDevice (store run.2) = Some sync_A
  /\ ~ (run.1 = Normal tt /\ connectedDevice (store run.2) = None).
Proof.
  cbn zeta.
  rewrite (disconnectDevice_rejected failing_adapter connectedStore (world_of connectedStore)
             sync_A "Device not connected" eq_refl eq_refl).
  split_and!; try reflexivity. intros [? _]. discriminate.
Qed.

(** C7, amended. [disconnectDevice] called with no connected device is a
    no-op that resolves. Called with a connected device whose cancel request
    the adapter completes, it resolves with the connected-device reference
    unset; a second call in a row is then a no-op that resolves, whatever
    the adapter. *)
Theorem disconnectDevice_idempotent adapter adapter' w :
  (forall connected,
     connectedDevice (store w) = Some connected ->
     cancelConnection adapter connected = Normal tt) ->
  let w1 := exec (disconnectDevice adapter (store w)) w in
  settled (disconnectDevice adapter (store w)) w = Normal tt
  /\ connectedDevice (store w1) = None
  /\ (connectedDevice (store w) = None -> w1 = w)
  /\ disconnectDevice adapter' (store w1) w1 = (Normal tt, w1).
Proof.
  intros Hcancel w1.
  assert (H1 : settled (disconnectDevice adapter (store w)) w = Normal tt
               /\ connectedDevice (store w1) = None).
  { subst w1. unfold settled, exec.
    destruct (connectedDevice (store w)) as [connected|] eqn:H.
    - by rewrite (disconnectDevice_cancelled _ _ _ connected H (Hcancel _ eq_refl)).
    - by rewrite (disconnectDevice_disconnected _ _ _ H). }
  destruct H1 as [Hs Hnone]. split_and!; try done.
  - intros H. subst w1. unfold exec. by rewrite (disconnectDevice_disconnected _ _ _ H).
  - by apply disconnectDevice_disconnected.
Qed.

Lemma disconnectDevice_idempotent_witness :
  cancelConnection willing_adapter sync_A = Normal tt
  /\ connectedDevice
       (store (exec (disconnectDevice willing_adapter connectedStore) (world_of connectedStore)))
     = None
  /\ settled
       (disconnectDevice failing_adapter
          (store (exec (disconnectDevice willing_adapter connectedStore)
                    (world_of connectedStore))))
       (exec (disconnectDevice willing_adapter connectedStore) (world_of connectedStore))
     = Normal tt.
Proof.
  pose proof (disconnectDevice_idempotent willing_adapter failing_adapter
                (world_of connectedStore) (fun _ _ => eq_refl)) as (_ & Hnone & _ & Hagain).
  split; [reflexivity|]. split; [exact Hnone|].
  unfold settled. cbn zeta in Hagain. unfold world_of in *. cbn [store] in *. by rewrite Hagain.
Defined.

(** ** startScan *)

Lemma requestPermissions_run adapter w :
  store (exec (requestPermissions adapter) w) = store w
  /\ added w (exec (requestPermissions adapter) w)
     = (if Platform_OS adapter === "android"
        then [RequestMultiple requested_permissions] else []).
Proof.
  unfold requestPermissions, exec.
  destruct (Platform_OS adapter === "android"); js_unfold.
  - destruct (requestMultiple adapter requested_permissions);
      cbn; (split; [done | by erewrite added_app]).
  - split; [done|]. unfold added. by rewrite drop_all.
Qed.

(** Only the Android branch can come back with [false]. *)
Lemma requestPermissions_denied adapter w :
  settled (requestPermissions adapter) w = Normal false ->
  added w (exec (requestPermissions adapter) w) = [RequestMultiple requested_permissions].
Proof.
  intros H. destruct (requestPermissions_run adapter w) as [_ ->].
  revert H. unfold requestPermissions, settled.
  destruct (Platform_OS adapter === "android"); [done|]. js_unfold. discriminate.
Qed.

Lemma added_trans w w1 w2 :
  trace w1 = trace w ++ added w w1 ->
  trace w2 = trace w1 ++ added w1 w2 ->
  added w w2 = added w w1 ++ added w1 w2.
Proof.
  intros H1 H2. apply added_app. rewrite H2, H1 at 1. by rewrite app_assoc.
Qed.

Lemma requestPermissions_trace adapter w :
  trace (exec (requestPermissions adapter) w)
  = trace w ++ added w (exec (requestPermissions adapter) w).
Proof.
  unfold requestPermissions, exec.
  destruct (Platform_OS adapter === "android"); js_unfold.
  - destruct (requestMultiple adapter requested_permissions); cbn; by erewrite added_app.
  - unfold added. by rewrite drop_all, app_nil_r.
Qed.

(** [startScan] once the permission request has settled: refused, already
    scanning, or started. *)
Lemma startScan_refused adapter render w :
  settled (requestPermissions adapter) w = Normal false ->
  startScan adapter render w
  = (Normal tt,
     {| store := store w;
        trace := trace w ++ [RequestMultiple requested_permissions;
                             AlertAlert "Error"
                               "Bluetooth permissions are required to continue"] |}).
Proof.
  intros H. unfold startScan. rewrite (bind_normal _ _ w false H). cbn [negb].
  pose proof (requestPermissions_denied adapter w H) as Hadded.
  pose proof (requestPermissions_trace adapter w) as Htrace.
  destruct (requestPermissions_run adapter w) as [Hstore _].
  rewrite Hadded in Htrace. js_unfold. rewrite Htrace, Hstore.
  by rewrite <- app_assoc.
Qed.

Lemma startScan_already_scanning adapter render w :
  settled (requestPermissions adapter) w = Normal true ->
  isScanning render = true ->
  startScan adapter render w = (Normal tt, exec (requestPermissions adapter) w).
Proof.
  intros H Hs. unfold startScan. rewrite (bind_normal _ _ w true H). cbn [negb].
  by rewrite Hs.
Qed.

Lemma startScan_started adapter render w :
  settled (requestPermissions adapter) w = Normal true ->
  isScanning render = false ->
  startScan adapter render w
  = (Normal tt,
     {| store := {| isScanning := true; connectedDevice := connectedDevice (store w);
                    devices := []; sliderValues := sliderValues (store w);
                    breathingMode := breathingMode (store w) |};
        trace := trace w ++ added w (exec (requestPermissions adapter) w)
                   ++ [StartDeviceScan; SetTimeout 5000] |}).
Proof.
  intros H Hs. unfold startScan. rewrite (bind_normal _ _ w true H). cbn [negb].
  rewrite Hs.
  pose proof (requestPermissions_trace adapter w) as Htrace.
  destruct (requestPermissions_run adapter w) as [Hstore _].
  js_unfold. rewrite Htrace, Hstore. by rewrite <- !app_assoc.
Qed.

(** C9. When the permission request comes back not granted, [startScan]
    reports "Bluetooth permissions are required to continue" in an error
    alert right after the request (the PermissionDenied failure) and
    returns: [isScanning] is not set, no scan and no timer are started, and
    the device list is not cleared. *)
Theorem startScan_permission_denied adapter render w :
  settled (requestPermissions adapter) w = Normal false ->
  let w' := exec (startScan adapter render) w in
  added w w' = [RequestMultiple requested_permissions;
                AlertAlert "Error" "Bluetooth permissions are required to continue"]
  /\ filter starts_scan (added w w') = []
  /\ isScanning (store w') = isScanning (store w)
  /\ devices (store w') = devices (store w)
  /\ store w' = store w.
Proof.
  intros H w'. subst w'. unfold exec. rewrite (startScan_refused adapter render w H).
  cbn [snd store trace]. erewrite added_app by done. done.
Qed.

Lemma startScan_permission_denied_witness :
  settled (requestPermissions failing_adapter) (world_of connectedStore) = Normal false
  /\ added (world_of connectedStore)
       (exec (startScan failing_adapter connectedStore) (world_of connectedStore))
     = [RequestMultiple requested_permissions;
        AlertAlert "Error" "Bluetooth permissions are required to continue"]
  /\ devices (store (exec (startScan failing_adapter connectedStore) (world_of connectedStore)))
     = [sync_A].
Proof.
  pose proof (startScan_permission_denied failing_adapter connectedStore
                (world_of connectedStore) eq_refl) as (Ha & _ & _ & Hd & _).
  split; [reflexivity|]. split; [exact Ha | exact Hd].
Defined.

(** The guard of [startScan] reads the closure: called by a closure that
    holds [isScanning = true], it starts nothing and leaves the store as it
    was, the scanning flag and the devices discovered so far included. *)
Theorem startScan_while_scanning adapter render w :
  isScanning render = true ->
  let w' := exec (startScan adapter render) w in
  store w' = store w
  /\ isScanning (store w') = isScanning (store w)
  /\ devices (store w') = devices (store w)
  /\ filter starts_scan (added w w') = []
  /\ (settled (requestPermissions adapter) w = Normal true ->
      startScan adapter render w = (Normal tt, exec (requestPermissions adapter) w)).
Proof.
  intros Hs w'.
  assert (H : store w' = store w /\ filter starts_scan (added w w') = []).
  { subst w'. unfold exec at 1 2.
    destruct (settled (requestPermissions adapter) w) as [[|]|reason] eqn:Hp.
    - rewrite (startScan_already_scanning adapter render w Hp Hs). cbn [snd].
      destruct (requestPermissions_run adapter w) as [-> ->].
      by destruct (Platform_OS adapter === "android").
    - rewrite (startScan_refused adapter render w Hp). cbn [snd store trace].
      erewrite added_app by done. done.
    - unfold startScan. rewrite (bind_throw _ _ w reason Hp). cbn [snd].
      destruct (requestPermissions_run adapter w) as [-> ->].
      by destruct (Platform_OS adapter === "android"). }
  destruct H as [Hstore Hnone]. rewrite Hstore. split_and!; try done.
  intros Hp. by apply startScan_already_scanning.
Qed.

Lemma startScan_while_scanning_witness :
  isScanning scanningStore = true
  /\ store (exec (startScan willing_adapter scanningStore) (world_of scanningStore))
     = scanningStore
  /\ devices (store (exec (startScan willing_adapter scanningStore) (world_of scanningStore)))
     = [sync_A].
Proof.
  pose proof (startScan_while_scanning willing_adapter scanningStore
                (world_of scanningStore) eq_refl) as (Hs & _ & Hd & _).
  split; [reflexivity|]. split; [exact Hs | exact Hd].
Defined.

(** C8, at the input on which the code departs from it. A scan started from
    a render that saw [isScanning = false] is in progress and has found a
    device; [startScan] is then called again from the closure of that same
    render. The guard reads the captured flag: the list is emptied and a
    second scan and a second timer are started. *)
Theorem startScan_stale_closure_restarts :
  let in_progress :=
    exec (startScan willing_adapter initialStore ;;; deliver [Advertisement sync_A])
      (world_of initialStore) in
  let again := exec (startScan willing_adapter initialStore) in_progress in
  isScanning initialStore = false
  /\ isScanning (store in_progress) = true
  /\ devices (store in_progress) = [sync_A]
  /\ settled (startScan willing_adapter initialStore) in_progress = Normal tt
  /\ devices (store again) = []
  /\ added in_progress again
     = [RequestMultiple requested_permissions; StartDeviceScan; SetTimeout 5000]
  /\ store again <> store in_progress.
Proof. cbn zeta. split_and!; try reflexivity. discriminate. Qed.

(** ** The discovered-device list *)

Lemma strict_eq_true {A} `{EqDecision A} (a b : A) : (a === b) = true -> a = b.
Proof. unfold strict_eq. apply bool_decide_eq_true. Qed.

Lemma strict_eq_false {A} `{EqDecision A} (a b : A) : (a === b) = false -> a <> b.
Proof. unfold strict_eq. apply bool_decide_eq_false. Qed.

Lemma strict_eq_intro {A} `{EqDecision A} (a b : A) : a = b -> (a === b) = true.
Proof. unfold strict_eq. apply bool_decide_eq_true. Qed.

Lemma find_by_id_None known device :
  find_by_id known device = None <-> id device ∉ id <$> known.
Proof.
  unfold find_by_id. induction known as [|d known IH]; cbn.
  - split; [intros _; apply not_elem_of_nil | done].
  - rewrite not_elem_of_cons. destruct (strict_eq (id d) (id device)) eqn:E.
    + apply strict_eq_true in E. split; [done | intros [Hne _]; congruence].
    + apply strict_eq_false in E. rewrite IH. split; [auto | tauto].
Qed.

Lemma addDevice_fresh known device :
  id device ∉ id <$> known -> addDevice device known = known ++ [device].
Proof. intros H. apply find_by_id_None in H. unfold addDevice. by rewrite H. Qed.

Lemma addDevice_known known device :
  id device ∈ id <$> known -> addDevice device known = known.
Proof.
  intros H. unfold addDevice.
  destruct (find_by_id known device) eqn:E; [done|].
  by apply find_by_id_None in E.
Qed.

(** One event either leaves the list alone or appends the advertised device. *)
Lemma registry_step_cases known event :
  registry_step known event = known
  \/ exists device,
       event = Advertisement device /\ name device = Some "SYNC"
       /\ (id device ∉ id <$> known)
       /\ registry_step known event = known ++ [device].
Proof.
  destruct event as [error|device]; cbn; [by left|].
  destruct (name device === Some "SYNC") eqn:E; [|by left].
  apply strict_eq_true in E.
  destruct (decide (id device ∈ id <$> known)) as [Hin|Hnin].
  - left. by apply addDevice_known.
  - right. exists device. by rewrite addDevice_fresh.
Qed.

Lemma registry_step_ok known event :
  registry_ok known -> registry_ok (registry_step known event).
Proof.
  intros [Hnd Hall].
  destruct (registry_step_cases known event) as [->|(device & _ & Hname & Hfresh & ->)];
    [done|].
  split.
  - rewrite fmap_app. apply NoDup_app. split_and!; [done| |apply NoDup_singleton].
    cbn. intros x Hx ->%list_elem_of_singleton. done.
  - apply Forall_app. split; [done|]. by constructor.
Qed.

Lemma registry_ok_foldl events known :
  registry_ok known -> registry_ok (foldl registry_step known events).
Proof.
  revert known. induction events as [|event events IH]; intros known Hok; cbn; [done|].
  by apply IH, registry_step_ok.
Qed.

Lemma registry_step_prefix known event : known `prefix_of` registry_step known event.
Proof.
  destruct (registry_step_cases known event) as [->|(device & _ & _ & _ & ->)];
    [done | by apply prefix_app_r].
Qed.

(** The list only grows at its end. *)
Lemma registry_prefix_foldl events known :
  known `prefix_of` foldl registry_step known events.
Proof.
  revert known. induction events as [|event events IH]; intros known; cbn; [done|].
  etrans; [apply registry_step_prefix | apply IH].
Qed.

(** Every device advertised under the target name is in the list from the
    event that brought it. *)
Lemma registry_complete_foldl events known device :
  Advertisement device ∈ events -> name device = Some "SYNC" ->
  id device ∈ id <$> foldl registry_step known events.
Proof.
  revert known. induction events as [|event events IH]; intros known Hin Hname.
  - by apply elem_of_nil in Hin.
  - apply elem_of_cons in Hin as [<-|Hin]; [|by apply IH].
    cbn [foldl].
    assert (Hnow : id device ∈ id <$> registry_step known (Advertisement device)).
    { cbn. rewrite (strict_eq_intro _ _ Hname).
      destruct (decide (id device ∈ id <$> known)) as [Hk|Hk].
      - by rewrite addDevice_known.
      - rewrite addDevice_fresh by done. rewrite fmap_app. set_solver. }
    destruct (registry_prefix_foldl events (registry_step known (Advertisement device)))
      as [more ->].
    rewrite fmap_app. set_solver.
Qed.

(** Every entry of the list was advertised, or was there before. *)
Lemma registry_sound_foldl events known device :
  device ∈ foldl registry_step known events ->
  device ∈ known \/ Advertisement device ∈ events.
Proof.
  revert known. induction events as [|event events IH]; intros known; cbn; [by left|].
  intros [Hin|Hin]%IH; [|right; by right].
  destruct (registry_step_cases known event) as [E|(d & -> & _ & _ & E)];
    rewrite E in Hin; [by left|].
  apply elem_of_app in Hin as [Hin|Hin%list_elem_of_singleton]; [by left|].
  subst. right. by left.
Qed.

Lemma scanListener_run event w :
  settled (scanListener event) w = Normal tt
  /\ devices (store (exec (scanListener event) w)) = registry_step (devices (store w)) event.
Proof.
  destruct event as [error|device]; cbn; [done|].
  unfold settled, exec. by destruct (name device === Some "SYNC").
Qed.

Lemma deliver_run events w :
  settled (deliver events) w = Normal tt
  /\ devices (store (exec (deliver events) w)) = foldl registry_step (devices (store w)) events.
Proof.
  revert w. induction events as [|event events IH]; intros w; [done|].
  destruct (scanListener_run event w) as [Hs Hd].
  unfold settled, exec. cbn [deliver foldl]. rewrite (bind_normal _ _ w tt Hs).
  rewrite <- Hd. apply IH.
Qed.

(** A scan that starts clears the list; the list is then what the events
    have made of the empty list. *)
Lemma discovered_foldl adapter render w events :
  settled (requestPermissions adapter) w = Normal true ->
  isScanning render = false ->
  discovered adapter render w events = foldl registry_step [] events.
Proof.
  intros Hp Hs. unfold discovered, exec at 1.
  rewrite (bind_normal _ _ w tt)
    by (unfold settled; by rewrite (startScan_started adapter render w Hp Hs)).
  fold (exec (deliver events) (exec (startScan adapter render) w)).
  destruct (deliver_run events (exec (startScan adapter render) w)) as [_ ->].
  unfold exec. by rewrite (startScan_started adapter render w Hp Hs).
Qed.

Lemma registry_ok_nil : registry_ok [].
Proof. split; [apply NoDup_nil_2 | constructor]. Qed.

(** C2. Whatever events a started scan delivers, the discovered-device list
    has no two entries with one id, holds only devices that were advertised
    under exactly the name "SYNC", holds every such device, and only grows
    at its end, so that its order is the order in which ids were first
    seen. An error event, an advertisement under any other name, or one
    whose id is already listed leaves the list unchanged; an advertisement
    of "SYNC" with a new id is appended. *)
Theorem discovered_devices_first_seen adapter render w events :
  settled (requestPermissions adapter) w = Normal true ->
  isScanning render = false ->
  let known := discovered adapter render w in
  NoDup (id <$> known events)
  /\ Forall (fun d => name d = Some "SYNC") (known events)
  /\ (forall d, d ∈ known events -> Advertisement d ∈ events)
  /\ (forall d, Advertisement d ∈ events -> name d = Some "SYNC" ->
                id d ∈ id <$> known events)
  /\ (forall before after, events = before ++ after ->
                           known before `prefix_of` known events)
  /\ (forall event,
        match event with
        | ScanError _ => True
        | Advertisement d => name d <> Some "SYNC" \/ id d ∈ id <$> known events
        end ->
        known (events ++ [event]) = known events)
  /\ (forall d, name d = Some "SYNC" -> id d ∉ id <$> known events ->
                known (events ++ [Advertisement d]) = known events ++ [d]).
Proof.
  intros Hp Hs known. subst known.
  assert (Hrun : forall evs, discovered adapter render w evs = foldl registry_step [] evs)
    by (intros evs; by apply discovered_foldl).
  rewrite !Hrun.
  destruct (registry_ok_foldl events [] registry_ok_nil) as [Hnd Hall].
  split_and!; try done.
  - intros d [Hin|Hin]%registry_sound_foldl; [by apply elem_of_nil in Hin | done].
  - intros d. apply registry_complete_foldl.
  - intros before after ->. rewrite !Hrun, foldl_app. apply registry_prefix_foldl.
  - intros event Hevent. rewrite Hrun, foldl_app. cbn [foldl].
    destruct event as [error|d]; cbn; [done|].
    destruct (name d === Some "SYNC") eqn:E; [|done].
    apply strict_eq_true in E. destruct Hevent as [?|Hin]; [done|].
    by apply addDevice_known.
  - intros d Hname Hfresh. rewrite Hrun, foldl_app. cbn.
    rewrite (strict_eq_intro _ _ Hname). by apply addDevice_fresh.
Qed.

Lemma discovered_devices_first_seen_witness :
  settled (requestPermissions willing_adapter) (world_of connectedStore) = Normal true
  /\ isScanning connectedStore = false
  /\ discovered willing_adapter connectedStore (world_of connectedStore)
       [Advertisement sync_A; Advertisement other_B; Advertisement lower_C;
        ScanError "Scan failed"; Advertisement sync_A]
     = [sync_A]
  /\ NoDup (id <$> discovered willing_adapter connectedStore (world_of connectedStore)
                     [Advertisement sync_A; Advertisement other_B; Advertisement lower_C;
                      ScanError "Scan failed"; Advertisement sync_A]).
Proof.
  split; [reflexivity|]. split; [reflexivity|]. split; [reflexivity|].
  exact (proj1 (discovered_devices_first_seen willing_adapter connectedStore
                  (world_of connectedStore)
                  [Advertisement sync_A; Advertisement other_B; Advertisement lower_C;
                   ScanError "Scan failed"; Advertisement sync_A]
                  eq_refl eq_refl)).
Defined.

(** ** A whole session *)

(** Scan, discover a "SYNC" peripheral next to another one, connect to it,
    send FORWARD, disconnect; every handler runs in the closure of the store
    the previous step left. *)
Example session_scenario :
  let w1 := exec (startScan willing_adapter initialStore ;;;
                  deliver [Advertisement sync_A; Advertisement other_B] ;;;
                  scanTimeout) (world_of initialStore) in
  let w2 := exec (connectToDevice willing_adapter sync_A) w1 in
  let w3 := exec (sendCommand willing_adapter (store w2) (motor_command "FORWARD")) w2 in
  let w4 := exec (disconnectDevice willing_adapter (store w3)) w3 in
  devices (store w1) = [sync_A]
  /\ isScanning (store w1) = false
  /\ connectedDevice (store w2) = Some sync_A
  /\ filter is_write (trace w3)
     = [WriteCharacteristicWithResponseForService sync_A
          BLE_CONFIG.SERVICE_UUID BLE_CONFIG.WRITE_CHARACTERISTIC "AQM="]
  /\ connectedDevice (store w4) = None.
Proof. repeat split. Qed.

(** * More of the component *)

(** ** Relating the world before a run to the world after *)

Section Preserves.

Context (R : relation World) `{!PreOrder R}.

Lemma preserves_ret {A} (a : A) : preserves R (ret a).
Proof. intros w. unfold exec, ret. cbn. reflexivity. Qed.

Lemma preserves_throw {A} (e : JsError) : preserves R (throw (A:=A) e).
Proof. intros w. unfold exec, throw. cbn. reflexivity. Qed.

Lemma preserves_bind {A B} (m : M A) (k : A -> M B) :
  preserves R m -> (forall a, preserves R (k a)) -> preserves R (bind m k).
Proof.
  intros Hm Hk w. specialize (Hm w). unfold exec, bind in *.
  destruct (m w) as [[a|e] w1]; cbn in *; [|done].
  etrans; [exact Hm | apply Hk].
Qed.

Lemma preserves_try_catch {A} (body : M A) (handler : JsError -> M A) :
  preserves R body -> (forall e, preserves R (handler e)) ->
  preserves R (try_catch body handler).
Proof.
  intros Hb Hh w. specialize (Hb w). unfold exec, try_catch in *.
  destruct (body w) as [[a|e] w1]; cbn in *; [done|].
  etrans; [exact Hb | apply Hh].
Qed.

End Preserves.

Section Advances.

Context (P : Effect -> Prop) (Q : relation Store) `{!PreOrder Q}.

#[global] Instance advances_preorder : PreOrder (advances P Q).
Proof.
  split.
  - intros w. split; [|reflexivity]. exists []. by rewrite app_nil_r.
  - intros w1 w2 w3 [(n1 & H1 & F1) Q1] [(n2 & H2 & F2) Q2]. split; [|by etrans].
    exists (n1 ++ n2). rewrite H2, H1, app_assoc. split; [done|]. by apply Forall_app.
Qed.

Lemma preserves_emit e : P e -> preserves (advances P Q) (emit e).
Proof. intros He w. split; [|reflexivity]. exists [e]. split; [done | by constructor]. Qed.

Lemma preserves_await {A} call (answer : Completion A) :
  P call -> preserves (advances P Q) (await call answer).
Proof. intros He w. split; [|reflexivity]. exists [call]. split; [done | by constructor]. Qed.

Lemma preserves_setState f :
  (forall s, Q s (f s)) -> preserves (advances P Q) (setState f).
Proof. intros Hf w. split; [|apply Hf]. exists []. by rewrite app_nil_r. Qed.

End Advances.

Lemma advances_added P Q w w' :
  advances P Q w w' ->
  trace w' = trace w ++ added w w' /\ Forall P (added w w') /\ Q (store w) (store w').
Proof.
  intros [(new & H & F) HQ]. by rewrite (added_app w w' new H).
Qed.

#[local] Instance same_preorder {X} (cell : Store -> X) : PreOrder (same cell).
Proof. split; [done|]. intros s1 s2 s3. unfold same. congruence. Qed.

#[local] Instance any_store_preorder : PreOrder any_store.
Proof. by split. Qed.

(** Break a handler down to its calls and state updates. *)
Ltac preserves_side :=
  lazymatch goal with
  | |- PreOrder _ => apply _
  | |- forall _, preserves _ _ => intros ?
  | |- _ => idtac
  end.

Ltac preserves_steps :=
  repeat first
    [ apply preserves_ret; preserves_side
    | apply preserves_bind; preserves_side
    | apply preserves_try_catch; preserves_side
    | match goal with
      | |- preserves _ (if ?b then _ else _) => destruct b eqn:?
      | |- preserves _ (match ?x with _ => _ end) => destruct x eqn:?
      end ].

#[local] Instance both_preorder Q1 Q2 `{!PreOrder Q1, !PreOrder Q2} : PreOrder (both Q1 Q2).
Proof.
  split.
  - intros s. split; reflexivity.
  - intros s1 s2 s3 [? ?] [? ?]. split; by etrans.
Qed.

#[local] Instance keeps_registry_preorder : PreOrder keeps_registry.
Proof.
  split; [intros s H; exact H|]. intros s1 s2 s3 H1 H2 H. by apply H2, H1.
Qed.

Lemma advances_weaken (P P' : Effect -> Prop) (Q Q' : relation Store) w w' :
  (forall e, P e -> P' e) -> (forall s s', Q s s' -> Q' s s') ->
  advances P Q w w' -> advances P' Q' w w'.
Proof.
  intros HP HQ [(new & H & F) Hs]. split; [|by apply HQ].
  exists new. split; [done|]. by eapply Forall_impl.
Qed.

(** *** What each handler calls and which cells it writes *)

Ltac preserves_prims :=
  first [ apply preserves_emit | apply preserves_await | apply preserves_setState ];
  preserves_side; try done;
  try (intros ?; unfold both, same, keeps_registry; cbn; split_and?; try done).

Lemma requestPermissions_preserves Q `{!PreOrder Q} adapter :
  preserves (advances (fun e => is_permission_request e = true) Q) (requestPermissions adapter).
Proof. unfold requestPermissions. preserves_steps; preserves_prims. Qed.

Lemma startScan_preserves adapter render :
  preserves
    (advances (fun e => is_permission_request e || is_report e || starts_scan e = true)
       (both (same connectedDevice) (both (same sliderValues)
          (both (same breathingMode) keeps_registry))))
    (startScan adapter render).
Proof.
  unfold startScan, requestPermissions, Alert_alert, setIsScanning, setDevices, setDevicesWith.
  preserves_steps; preserves_prims.
  intros _. apply registry_ok_nil.
Qed.

Lemma scanListener_preserves event :
  preserves
    (advances (fun e => is_report e = true)
       (both (same connectedDevice) (both (same sliderValues)
          (both (same breathingMode) keeps_registry))))
    (scanListener event).
Proof.
  unfold scanListener, console_error, setIsScanning, setDevicesWith.
  preserves_steps; preserves_prims.
  intros Hok.
  pose proof (registry_step_ok _ (Advertisement device) Hok) as Hstep.
  cbn in Hstep. match goal with H : _ = true |- _ => by rewrite H in Hstep end.
Qed.

Lemma deliver_preserves events :
  preserves
    (advances (fun e => is_report e = true)
       (both (same connectedDevice) (both (same sliderValues)
          (both (same breathingMode) keeps_registry))))
    (deliver events).
Proof.
  induction events as [|event events IH]; cbn [deliver].
  - apply preserves_ret. apply _.
  - apply preserves_bind; [apply _ | apply scanListener_preserves | intros _; apply IH].
Qed.

Lemma scanTimeout_preserves :
  preserves
    (advances (fun e => is_stop e = true)
       (both (same connectedDevice) (both (same sliderValues)
          (both (same breathingMode) (same devices)))))
    scanTimeout.
Proof. unfold scanTimeout, setIsScanning. preserves_steps; preserves_prims. Qed.

Lemma connectToDevice_preserves adapter device :
  preserves
    (advances (fun e => is_report e || is_connect e = true)
       (both (same isScanning) (both (same devices)
          (both (same sliderValues) (same breathingMode)))))
    (connectToDevice adapter device).
Proof.
  unfold connectToDevice, console_log, console_error, Alert_alert, setConnectedDevice.
  preserves_steps; preserves_prims.
Qed.

Lemma disconnectDevice_preserves adapter render :
  preserves
    (advances (fun e => is_report e || is_cancel e = true)
       (both (same isScanning) (both (same devices)
          (both (same sliderValues) (same breathingMode)))))
    (disconnectDevice adapter render).
Proof.
  unfold disconnectDevice, Alert_alert, setConnectedDevice.
  preserves_steps; preserves_prims.
Qed.

Lemma sendCommand_preserves adapter render command :
  preserves
    (advances (fun e => is_report e = true
                        \/ exists connected, e = write_request command connected)
       eq)
    (sendCommand adapter render command).
Proof.
  unfold sendCommand, console_log, console_error, Alert_alert.
  preserves_steps; preserves_prims; eauto.
Qed.

Lemma toggleBreathingMode_preserves adapter render :
  preserves
    (advances (fun e => breathing_write e /\ (is_report e || is_write e = true))
       (both (same isScanning) (both (same connectedDevice)
          (both (same devices) (same sliderValues)))))
    (toggleBreathingMode adapter render).
Proof.
  unfold toggleBreathingMode, Alert_alert, setBreathingMode.
  preserves_steps; try preserves_prims.
  all: intros w; eapply advances_weaken; [| |apply sendCommand_preserves].
  all: try (intros s s' <-; by repeat split).
  all: intros e [He|[connected ->]]; [by destruct e|]; cbn; auto.
Qed.

Lemma onSlidingComplete_preserves value :
  preserves
    (advances (fun e => False)
       (both (same isScanning) (both (same connectedDevice)
          (both (same devices) (both (same breathingMode)
             (fun s s' => pump (sliderValues s') = pump (sliderValues s)))))))
    (onSlidingComplete value).
Proof.
  unfold onSlidingComplete, setSliderValuesWith.
  intros w. split; [|by repeat split]. exists []. by rewrite app_nil_r.
Qed.

Lemma sendCommand_writes_once_lemma adapter render command w connected :
  connectedDevice render = Some connected ->
  filter is_write (added w (exec (sendCommand adapter render command) w))
  = [write_request command connected]
  /\ trace (exec (sendCommand adapter render command) w)
     = trace w ++ added w (exec (sendCommand adapter render command) w).
Proof.
  intros Hc. unfold exec.
  destruct (write_answer adapter command connected) as [[]|reason] eqn:Hw.
  - rewrite (sendCommand_acknowledged adapter render command w connected Hc Hw). cbn.
    erewrite added_app by done. done.
  - rewrite (sendCommand_rejected adapter render command w connected reason Hc Hw). cbn.
    erewrite added_app by done. done.
Qed.

(** ** Permissions and the start of a scan *)

Lemma requestPermissions_settled_any adapter w w' :
  settled (requestPermissions adapter) w = settled (requestPermissions adapter) w'.
Proof.
  unfold requestPermissions, settled.
  destruct (Platform_OS adapter === "android"); [|done].
  js_unfold. by destruct (requestMultiple adapter requested_permissions).
Qed.

Lemma forallb_granted (answer : list (Permission * PermissionStatus)) :
  forallb (fun status => status === GRANTED) (answer.*2) = true
  <-> Forall (fun entry => entry.2 = GRANTED) answer.
Proof.
  induction answer as [|[p status] answer IH]; cbn.
  - split; [constructor | done].
  - rewrite andb_true_iff, Forall_cons, IH. cbn.
    split; intros [H ?]; (split; [|done]).
    + by apply strict_eq_true.
    + by apply strict_eq_intro.
Qed.

(** X1. [requestPermissions] resolves with [true] exactly when the platform
    is not Android (no request is made there), or when the Android request
    resolves with every returned status equal to "granted", an empty answer
    included. *)
Theorem requestPermissions_granted_iff adapter w :
  settled (requestPermissions adapter) w = Normal true
  <-> Platform_OS adapter <> "android"
      \/ exists answer,
           requestMultiple adapter requested_permissions = Normal answer
           /\ Forall (fun entry => entry.2 = GRANTED) answer.
Proof.
  unfold requestPermissions, settled.
  destruct (Platform_OS adapter === "android") eqn:Hos.
  - apply strict_eq_true in Hos. js_unfold.
    destruct (requestMultiple adapter requested_permissions) as [answer|reason]; cbn.
    + split.
      * intros [= H]. right. exists answer. by rewrite <- forallb_granted.
      * intros [?|(answer' & [= <-] & H)]; [done|].
        f_equal. by apply forallb_granted.
    + split; [done|]. intros [?|(answer' & ? & _)]; done.
  - apply strict_eq_false in Hos. split; [by left | done].
Qed.

(** X2. On Android, when the permission request itself rejects,
    [startScan] rejects with the same error: nothing catches it, no alert is
    shown, the store is untouched and no scan is started. *)
Theorem startScan_request_rejected adapter render w reason :
  Platform_OS adapter = "android" ->
  requestMultiple adapter requested_permissions = Throw reason ->
  startScan adapter render w
  = (Throw reason,
     {| store := store w; trace := trace w ++ [RequestMultiple requested_permissions] |}).
Proof.
  intros Hos Hreq. unfold startScan, requestPermissions.
  rewrite (strict_eq_intro _ _ Hos). js_unfold. by rewrite Hreq.
Qed.

Lemma startScan_fresh adapter render w :
  settled (requestPermissions adapter) w = Normal true ->
  isScanning render = false ->
  let w' := exec (startScan adapter render) w in
  store w'
  = {| isScanning := true; connectedDevice := connectedDevice (store w);
       devices := []; sliderValues := sliderValues (store w);
       breathingMode := breathingMode (store w) |}
  /\ filter starts_scan (added w w') = [StartDeviceScan; SetTimeout 5000].
Proof.
  intros Hp Hs w'.
  pose proof (startScan_started adapter render w Hp Hs) as Hrun.
  assert (Hw' : w' = (startScan adapter render w).2) by done.
  rewrite Hw', Hrun. cbn [fst snd store trace].
  erewrite added_app by done. split; [done|].
  rewrite filter_app. destruct (requestPermissions_run adapter w) as [_ ->].
  by destruct (Platform_OS adapter === "android").
Qed.

(** X4. The guard of [startScan] reads the flag its closure captured:
    two calls from one render that saw [isScanning = false] start two scans
    and set two timers. *)
Theorem startScan_guard_is_per_render adapter render w :
  settled (requestPermissions adapter) w = Normal true ->
  isScanning render = false ->
  let w' := exec (startScan adapter render ;;; startScan adapter render) w in
  filter starts_scan (added w w')
  = [StartDeviceScan; SetTimeout 5000; StartDeviceScan; SetTimeout 5000]
  /\ isScanning (store w') = true.
Proof.
  intros Hp Hs w'. subst w'. unfold exec at 1 2.
  rewrite (bind_normal _ _ w tt)
    by (unfold settled; by rewrite (startScan_started adapter render w Hp Hs)).
  set (w1 := exec (startScan adapter render) w).
  assert (Hp1 : settled (requestPermissions adapter) w1 = Normal true)
    by (by rewrite (requestPermissions_settled_any adapter w1 w)).
  destruct (startScan_fresh adapter render w Hp Hs) as (_ & Hf).
  destruct (startScan_fresh adapter render w1 Hp1 Hs) as (Hst & Hf1).
  fold w1 in Hf. fold (exec (startScan adapter render) w1).
  set (w2 := exec (startScan adapter render) w1) in *.
  split; [|by rewrite Hst].
  rewrite (added_trans w w1 w2).
  - by rewrite filter_app, Hf, Hf1.
  - apply (advances_added _ _ _ _ (startScan_preserves adapter render w)).
  - apply (advances_added _ _ _ _ (startScan_preserves adapter render w1)).
Qed.

(** X3. With the permissions granted and [isScanning] false in the
    closure, [startScan] sets the scanning flag, empties the device list,
    starts the scan and then sets the five-second timer; the connected
    device, the slider values and the breathing flag are kept. *)
Theorem startScan_begins adapter render w :
  settled (requestPermissions adapter) w = Normal true ->
  isScanning render = false ->
  let w' := exec (startScan adapter render) w in
  settled (startScan adapter render) w = Normal tt
  /\ store w'
     = {| isScanning := true; connectedDevice := connectedDevice (store w);
          devices := []; sliderValues := sliderValues (store w);
          breathingMode := breathingMode (store w) |}
  /\ added w w'
     = added w (exec (requestPermissions adapter) w) ++ [StartDeviceScan; SetTimeout 5000]
  /\ filter starts_scan (added w w') = [StartDeviceScan; SetTimeout 5000].
Proof.
  intros Hp Hs w'.
  pose proof (startScan_started adapter render w Hp Hs) as Hrun.
  assert (Hw' : w' = (startScan adapter render w).2) by done.
  unfold settled. rewrite Hw', Hrun. cbn [fst snd store trace].
  erewrite added_app by done. split_and!; try done.
  rewrite filter_app. destruct (requestPermissions_run adapter w) as [_ ->].
  by destruct (Platform_OS adapter === "android").
Qed.

(** ** The scan listener and the scan timer *)

Lemma deliver_app events1 events2 w :
  deliver (events1 ++ events2) w = deliver events2 (exec (deliver events1) w).
Proof.
  revert w. induction events1 as [|event events1 IH]; intros w; [done|].
  cbn [app deliver]. destruct (scanListener_run event w) as [Hs _].
  unfold exec in *. rewrite !(bind_normal _ _ w tt Hs). apply IH.
Qed.

(** X5. The scan listener does not look at [isScanning]: an
    advertisement of "SYNC" with a new id is appended whatever the flag is,
    also after the scan timer has fired. *)
Theorem scanListener_ignores_isScanning (w : World) device :
  name device = Some "SYNC" ->
  id device ∉ id <$> devices (store w) ->
  let w1 := exec (scanListener (Advertisement device)) w in
  let w2 := exec (scanTimeout ;;; scanListener (Advertisement device)) w in
  devices (store w1) = devices (store w) ++ [device]
  /\ isScanning (store w1) = isScanning (store w)
  /\ devices (store w2) = devices (store w) ++ [device]
  /\ isScanning (store w2) = false.
Proof.
  intros Hname Hfresh. cbn zeta.
  unfold scanTimeout, scanListener. rewrite (strict_eq_intro _ _ Hname).
  js_unfold. cbn. by rewrite addDevice_fresh.
Qed.

Lemma deliver_cons event events w :
  exec (deliver (event :: events)) w = exec (deliver events) (exec (scanListener event) w).
Proof.
  unfold exec. cbn [deliver].
  by rewrite (bind_normal _ _ w tt (proj1 (scanListener_run event w))).
Qed.

Lemma deliver_trace events w :
  trace (exec (deliver events) w) = trace w ++ logged_errors events.
Proof.
  revert w. induction events as [|event events IH]; intros w.
  - by rewrite app_nil_r.
  - rewrite deliver_cons, IH. destruct event as [error|device]; cbn.
    + by rewrite <- app_assoc.
    + unfold exec. by destruct (name device === Some "SYNC").
Qed.

Lemma deliver_isScanning events w :
  isScanning (store (exec (deliver events) w))
  = (if existsb is_error_event events then false else isScanning (store w)).
Proof.
  revert w. induction events as [|event events IH]; intros w; [done|].
  rewrite deliver_cons, IH. destruct event as [error|device]; cbn.
  - by destruct (existsb is_error_event events).
  - unfold exec. by destruct (name device === Some "SYNC").
Qed.

(** X6. The scan listener never rejects; over any sequence of events it
    logs exactly the scan errors, in order, and makes no other call; it
    clears [isScanning] when an error is among them and otherwise leaves it
    alone; it never touches the connected device, the slider values or the
    breathing flag. *)
Theorem deliver_log_and_frame events w :
  let w' := exec (deliver events) w in
  settled (deliver events) w = Normal tt
  /\ added w w' = logged_errors events
  /\ isScanning (store w')
     = (if existsb is_error_event events then false else isScanning (store w))
  /\ connectedDevice (store w') = connectedDevice (store w)
  /\ sliderValues (store w') = sliderValues (store w)
  /\ breathingMode (store w') = breathingMode (store w).
Proof.
  cbn zeta.
  destruct (deliver_preserves events w) as [_ (Hc & Hv & Hb & _)].
  split; [apply deliver_run|]. split_and!; try done.
  - apply added_app, deliver_trace.
  - apply deliver_isScanning.
Qed.

(** Delivering events in two batches is delivering them at once. *)
Lemma deliver_in_batches events1 events2 w :
  exec (deliver (events1 ++ events2)) w = exec (deliver events2) (exec (deliver events1) w)
  /\ devices (store (exec (deliver (events1 ++ events2)) w))
     = foldl registry_step (foldl registry_step (devices (store w)) events1) events2.
Proof.
  split.
  - unfold exec at 1 2. by rewrite deliver_app.
  - destruct (deliver_run (events1 ++ events2) w) as [_ ->]. by rewrite foldl_app.
Qed.

Lemma registry_settled_foldl events known :
  (forall device, Advertisement device ∈ events -> name device = Some "SYNC" ->
                  id device ∈ id <$> known) ->
  foldl registry_step known events = known.
Proof.
  induction events as [|event events IH]; intros Hknown; [done|]. cbn [foldl].
  assert (Hstep : registry_step known event = known).
  { destruct (registry_step_cases known event) as [E|(d & -> & Hname & Hfresh & _)]; [done|].
    destruct Hfresh. apply Hknown; [by left | done]. }
  rewrite Hstep. apply IH. intros device Hin. apply Hknown. by right.
Qed.

(** X7. Delivering a sequence of events a second time leaves the device
    list as the first delivery made it, whatever the list was before. *)
Theorem deliver_again_changes_nothing events w :
  devices (store (exec (deliver (events ++ events)) w))
  = devices (store (exec (deliver events) w)).
Proof.
  destruct (deliver_run (events ++ events) w) as [_ ->].
  destruct (deliver_run events w) as [_ ->].
  rewrite foldl_app. apply registry_settled_foldl.
  intros device Hin Hname. by apply registry_complete_foldl.
Qed.

(** X8. When the timer of a started scan fires, the scan is stopped, the
    flag is cleared and the discovered devices stay listed; [startScan] in
    the next render then starts a new scan from an empty list. *)
Theorem scan_restarts_after_timeout adapter adapter' render w events :
  settled (requestPermissions adapter) w = Normal true ->
  settled (requestPermissions adapter') w = Normal true ->
  isScanning render = false ->
  let w1 := exec (startScan adapter render ;;; deliver events ;;; scanTimeout) w in
  let w2 := exec (startScan adapter' (store w1)) w1 in
  isScanning (store w1) = false
  /\ devices (store w1) = discovered adapter render w events
  /\ last (trace w1) = Some StopDeviceScan
  /\ isScanning (store w2) = true
  /\ devices (store w2) = []
  /\ filter starts_scan (added w1 w2) = [StartDeviceScan; SetTimeout 5000].
Proof.
  intros Hp Hp' Hs w1 w2.
  assert (Hstart : settled (startScan adapter render) w = Normal tt)
    by (unfold settled; by rewrite (startScan_started adapter render w Hp Hs)).
  assert (Hw1 : w1 = exec scanTimeout (exec (startScan adapter render ;;; deliver events) w)).
  { subst w1. unfold exec at 1 3. rewrite (bind_normal _ _ w tt Hstart).
    rewrite (bind_normal _ _ _ tt) by apply deliver_run.
    unfold exec at 2. by rewrite (bind_normal _ _ w tt Hstart). }
  assert (H1 : isScanning (store w1) = false
               /\ devices (store w1) = discovered adapter render w events
               /\ last (trace w1) = Some StopDeviceScan).
  { rewrite Hw1. unfold discovered. js_unfold. cbn. split_and!; try done. apply last_snoc. }
  destruct H1 as (Hi & Hd & Hl). split_and!; try done.
  all: assert (Hp1 : settled (requestPermissions adapter') w1 = Normal true)
         by (by rewrite (requestPermissions_settled_any adapter' w1 w)).
  all: destruct (startScan_fresh adapter' (store w1) w1 Hp1 Hi) as (Hst & Hf).
  - subst w2. by rewrite Hst.
  - subst w2. by rewrite Hst.
  - exact Hf.
Qed.

(** X9. A scan error clears the flag without stopping the scan or its
    timer, so a scan can be started again; when the first scan's timer then
    fires, it stops the scan and clears the flag, although the second scan's
    own timer is still pending. *)
Theorem stale_timer_stops_new_scan adapter adapter' render w error :
  settled (requestPermissions adapter) w = Normal true ->
  settled (requestPermissions adapter') w = Normal true ->
  isScanning render = false ->
  let w1 := exec (startScan adapter render ;;; scanListener (ScanError error)) w in
  let w2 := exec (startScan adapter' (store w1)) w1 in
  let w3 := exec scanTimeout w2 in
  isScanning (store w1) = false
  /\ isScanning (store w2) = true
  /\ filter starts_scan (added w w2)
     = [StartDeviceScan; SetTimeout 5000; StartDeviceScan; SetTimeout 5000]
  /\ filter is_stop (trace w2) = filter is_stop (trace w)
  /\ isScanning (store w3) = false
  /\ added w2 w3 = [StopDeviceScan].
Proof.
  intros Hp Hp' Hs w1 w2 w3.
  assert (Hstart : settled (startScan adapter render) w = Normal tt)
    by (unfold settled; by rewrite (startScan_started adapter render w Hp Hs)).
  set (w0 := exec (startScan adapter render) w).
  assert (Hw1 : w1 = exec (scanListener (ScanError error)) w0).
  { subst w1 w0. unfold exec at 1. by rewrite (bind_normal _ _ w tt Hstart). }
  assert (Hi : isScanning (store w1) = false) by (by rewrite Hw1).
  assert (Hp1 : settled (requestPermissions adapter') w1 = Normal true)
    by (by rewrite (requestPermissions_settled_any adapter' w1 w)).
  destruct (startScan_fresh adapter render w Hp Hs) as (_ & Hf0).
  destruct (startScan_fresh adapter' (store w1) w1 Hp1 Hi) as (Hst & Hf).
  fold w0 in Hf0. fold w2 in Hst, Hf.
  destruct (advances_added _ _ _ _ (startScan_preserves adapter render w)) as (Ht0 & Hk0 & _).
  destruct (advances_added _ _ _ _ (startScan_preserves adapter' (store w1) w1))
    as (Ht2 & Hk2 & _).
  fold w0 in Ht0, Hk0. fold w2 in Ht2, Hk2.
  assert (Ht1 : trace w1 = trace w0 ++ [ConsoleError None error]) by (by rewrite Hw1).
  split_and!; try done.
  - by rewrite Hst.
  - assert (Ha1 : added w w1 = added w w0 ++ [ConsoleError None error])
      by (apply added_app; by rewrite Ht1, Ht0, app_assoc).
    rewrite (added_trans w w1 w2);
      [|by rewrite Ha1, Ht1, Ht0, app_assoc|done].
    by rewrite filter_app, Hf, Ha1, filter_app, Hf0.
  - rewrite Ht2, Ht1, Ht0, !filter_app.
    assert (Hno : forall l, Forall (fun e => is_permission_request e || is_report e || starts_scan e = true) l
                            -> filter is_stop l = []).
    { induction 1 as [|e l He _ IH]; [done|]. rewrite filter_cons, IH. by destruct e. }
    rewrite (Hno _ Hk0), (Hno _ Hk2). cbn. by rewrite !app_nil_r.
  - subst w3. by apply added_app.
Qed.

(** ** Connecting and disconnecting *)

Lemma filter_none {A} (f : A -> bool) (P : A -> Prop) (l : list A) :
  (forall x, P x -> f x = false) -> Forall P l -> filter f l = [].
Proof.
  intros Hf. induction 1 as [|x l Hx _ IH]; [done|].
  rewrite filter_cons, IH. specialize (Hf x Hx). by destruct (f x).
Qed.

Lemma connectToDevice_resolves adapter device w :
  settled (connectToDevice adapter device) w = Normal tt.
Proof.
  unfold connectToDevice. js_unfold.
  destruct (connect adapter device) as [connected|reason]; cbn; [|done].
  by destruct (discoverAllServicesAndCharacteristics adapter connected) as [[]|reason].
Qed.

(** X10. [connectToDevice] never rejects, whatever the adapter answers;
    it never cancels a connection, never writes and never starts a scan, and
    it leaves the scanning flag, the device list, the slider values and the
    breathing flag as they were. *)
Theorem connectToDevice_never_rejects adapter device w :
  let w' := exec (connectToDevice adapter device) w in
  settled (connectToDevice adapter device) w = Normal tt
  /\ filter is_cancel (added w w') = []
  /\ filter is_write (added w w') = []
  /\ filter starts_scan (added w w') = []
  /\ isScanning (store w') = isScanning (store w)
  /\ devices (store w') = devices (store w)
  /\ sliderValues (store w') = sliderValues (store w)
  /\ breathingMode (store w') = breathingMode (store w).
Proof.
  cbn zeta.
  destruct (advances_added _ _ _ _ (connectToDevice_preserves adapter device w))
    as (_ & Hcalls & Hi & Hd & Hv & Hb).
  split; [apply connectToDevice_resolves|].
  split_and!; try done.
  all: eapply filter_none; [|exact Hcalls]; by intros [].
Qed.

Lemma connectToDevice_connected_run adapter device w connected :
  connect adapter device = Normal connected ->
  discoverAllServicesAndCharacteristics adapter connected = Normal tt ->
  store (exec (connectToDevice adapter device) w)
  = {| isScanning := isScanning (store w); connectedDevice := Some connected;
       devices := devices (store w); sliderValues := sliderValues (store w);
       breathingMode := breathingMode (store w) |}.
Proof.
  intros Hc Hd. unfold exec.
  by rewrite (connectToDevice_connected adapter device w connected Hc Hd).
Qed.

(** X11. When both steps succeed, [connectToDevice] records the device
    the adapter's [connect] returned (also over a device recorded before),
    after calling connect and then the enumeration on that device, and
    announces success under the name of the device that was passed in. *)
Theorem connectToDevice_success adapter device w connected :
  connect adapter device = Normal connected ->
  discoverAllServicesAndCharacteristics adapter connected = Normal tt ->
  let w' := exec (connectToDevice adapter device) w in
  store w'
  = {| isScanning := isScanning (store w); connectedDevice := Some connected;
       devices := devices (store w); sliderValues := sliderValues (store w);
       breathingMode := breathingMode (store w) |}
  /\ added w w'
     = [ConsoleLog "Connecting to device:" (PName (name device));
        Connect device;
        DiscoverAllServicesAndCharacteristics connected;
        AlertAlert "Success" ("Connected to device " ++ template (name device))].
Proof.
  intros Hc Hd w'. subst w'. unfold exec at 1 2.
  rewrite (connectToDevice_connected adapter device w connected Hc Hd).
  cbn. by erewrite added_app.
Qed.


(** X12. When the adapter connects and the enumeration then fails,
    [connectToDevice] logs and reports the error and leaves the store as it
    was, and it does not cancel the connection it has just opened. *)
Theorem discovery_failure_leaves_link_open adapter device w connected reason :
  connect adapter device = Normal connected ->
  discoverAllServicesAndCharacteristics adapter connected = Throw reason ->
  let w' := exec (connectToDevice adapter device) w in
  added w w'
  = [ConsoleLog "Connecting to device:" (PName (name device));
     Connect device;
     DiscoverAllServicesAndCharacteristics connected;
     ConsoleError (Some "Connection error:") reason;
     AlertAlert "Error" "Failed to connect to device"]
  /\ filter is_cancel (added w w') = []
  /\ store w' = store w.
Proof.
  intros Hc Hd w'.
  assert (Hrun : added w w'
                 = [ConsoleLog "Connecting to device:" (PName (name device));
                    Connect device;
                    DiscoverAllServicesAndCharacteristics connected;
                    ConsoleError (Some "Connection error:") reason;
                    AlertAlert "Error" "Failed to connect to device"]
                 /\ store w' = store w).
  { subst w'. unfold connectToDevice. js_unfold. rewrite Hc. cbn. rewrite Hd. cbn.
    split; [|done]. apply added_app. cbn. by rewrite <- !app_assoc. }
  destruct Hrun as [-> ->]. done.
Qed.

(** X13. Connecting from a store with no connected device and then
    disconnecting in the next render brings the store back to what it was;
    the disconnect cancels the connection and then announces it. *)
Theorem connect_then_disconnect adapter adapter' device w connected :
  connectedDevice (store w) = None ->
  connect adapter device = Normal connected ->
  discoverAllServicesAndCharacteristics adapter connected = Normal tt ->
  cancelConnection adapter' connected = Normal tt ->
  let w1 := exec (connectToDevice adapter device) w in
  let w2 := exec (disconnectDevice adapter' (store w1)) w1 in
  connectedDevice (store w1) = Some connected
  /\ store w2 = store w
  /\ added w1 w2 = [CancelConnection connected;
                    AlertAlert "Success" "Device disconnected successfully"].
Proof.
  intros Hnone Hc Hd Hx w1 w2.
  pose proof (connectToDevice_connected_run adapter device w connected Hc Hd) as Hs1.
  fold w1 in Hs1.
  assert (H1 : connectedDevice (store w1) = Some connected) by (by rewrite Hs1).
  split; [done|].
  pose proof (disconnectDevice_cancelled adapter' (store w1) w1 connected H1 Hx) as Hrun.
  subst w2. unfold exec. rewrite Hrun.
  cbn. rewrite Hs1. cbn. split; [|by erewrite added_app].
  destruct w as [[]]. cbn in *. by subst.
Qed.

(** X14. When the adapter rejects the cancel request,
    [disconnectDevice] rejects with the adapter's error, shows no alert and
    leaves the store as it was; calling it again from the same closure, with
    an adapter that completes the cancel, disconnects. *)
Theorem disconnectDevice_rejection adapter adapter' render w connected reason :
  connectedDevice render = Some connected ->
  cancelConnection adapter connected = Throw reason ->
  cancelConnection adapter' connected = Normal tt ->
  let w1 := exec (disconnectDevice adapter render) w in
  let w2 := exec (disconnectDevice adapter' render) w1 in
  settled (disconnectDevice adapter render) w = Throw reason
  /\ store w1 = store w
  /\ added w w1 = [CancelConnection connected]
  /\ settled (disconnectDevice adapter' render) w1 = Normal tt
  /\ connectedDevice (store w2) = None.
Proof.
  intros Hr Hx Hx' w1 w2. subst w2 w1. unfold settled, exec.
  rewrite (disconnectDevice_rejected adapter render w connected reason Hr Hx).
  cbn [fst snd store trace].
  rewrite (disconnectDevice_cancelled adapter' render _ connected Hr Hx').
  cbn. split_and!; try done. by erewrite added_app.
Qed.

(** X15. After a [disconnectDevice] that cancelled the connection, the
    connected-device dependency of the effect has changed, and the clean-up
    of the render that held the device asks to cancel that same connection
    once more, unawaited; the clean-up of the new render only removes the
    subscription. *)
Theorem cleanup_cancels_again adapter render w connected :
  connectedDevice render = Some connected ->
  cancelConnection adapter connected = Normal tt ->
  let w' := exec (disconnectDevice adapter render) w in
  CancelConnection connected ∈ added w w'
  /\ connectedDevice (store w') <> connectedDevice render
  /\ effectCleanup render = [SubscriptionRemove; CancelConnectionUnawaited connected]
  /\ effectCleanup (store w') = [SubscriptionRemove].
Proof.
  intros Hr Hx w'. subst w'. unfold exec, effectCleanup.
  rewrite (disconnectDevice_cancelled adapter render w connected Hr Hx), Hr.
  cbn. erewrite added_app by done. split_and!; try done. set_solver.
Qed.

(** ** Breathing mode *)

(** The command the closure's flag selects. *)
Lemma toggleBreathingMode_run adapter render w :
  toggleBreathingMode adapter render w
  = setBreathingMode (negb (breathingMode render))
      (exec (sendCommand adapter render
               (motor_command (if breathingMode render then "STOP_BREATHING"
                               else "START_BREATHING"))) w).
Proof.
  unfold toggleBreathingMode, try_catch.
  destruct (breathingMode render);
    by rewrite (bind_normal _ _ w tt) by apply sendCommand_resolves.
Qed.

Lemma toggleBreathingMode_store adapter render w :
  store (exec (toggleBreathingMode adapter render) w)
  = {| isScanning := isScanning (store w); connectedDevice := connectedDevice (store w);
       devices := devices (store w); sliderValues := sliderValues (store w);
       breathingMode := negb (breathingMode render) |}.
Proof.
  unfold exec at 1. rewrite toggleBreathingMode_run. cbn.
  by rewrite (proj2 (sendCommand_resolves _ _ _ _)).
Qed.

(** X16. With a connected device, [toggleBreathingMode] makes exactly one
    write, to the write characteristic, of the command the button's label
    names: "AQEB" (START_BREATHING) under "Start Breathing", "AQAB"
    (STOP_BREATHING) under "Stop Breathing"; it resolves and flips the flag. *)
Theorem toggleBreathingMode_sends_what_the_button_names adapter render w connected :
  connectedDevice render = Some connected ->
  let w' := exec (toggleBreathingMode adapter render) w in
  let payload := if breathingMode render then "AQAB" else "AQEB" in
  filter is_write (added w w')
  = [WriteCharacteristicWithResponseForService connected
       BLE_CONFIG.SERVICE_UUID BLE_CONFIG.WRITE_CHARACTERISTIC payload]
  /\ base64_decode (list_ascii_of_string payload)
     = MOTOR_COMMANDS !! (if breathingMode render then "STOP_BREATHING" else "START_BREATHING")
  /\ breathingLabel render
     = (if breathingMode render then "Stop Breathing" else "Start Breathing")
  /\ breathingMode (store w') = negb (breathingMode render)
  /\ settled (toggleBreathingMode adapter render) w = Normal tt.
Proof.
  intros Hc w' payload.
  set (command := motor_command (if breathingMode render then "STOP_BREATHING"
                                 else "START_BREATHING")).
  destruct (sendCommand_writes_once_lemma adapter render command w connected Hc)
    as (Hw & Htr).
  assert (Hadded : added w w' = added w (exec (sendCommand adapter render command) w)).
  { subst w'. unfold exec at 1. rewrite toggleBreathingMode_run. fold command.
    unfold added. by cbn. }
  rewrite Hadded, Hw. subst w' payload command.
  split_and!.
  - destruct (breathingMode render); reflexivity.
  - destruct (breathingMode render); reflexivity.
  - unfold breathingLabel. destruct (breathingMode render); reflexivity.
  - by rewrite toggleBreathingMode_store.
  - apply (toggleBreathingMode_flips adapter render w).
Qed.

(** X17. With no connected device, [toggleBreathingMode] only shows
    "Please connect to a device first", writes nothing, and still flips the
    breathing flag. *)
Theorem toggleBreathingMode_without_device adapter render w :
  connectedDevice render = None ->
  let w' := exec (toggleBreathingMode adapter render) w in
  added w w' = [AlertAlert "Error" "Please connect to a device first"]
  /\ breathingMode (store w') = negb (breathingMode render)
  /\ settled (toggleBreathingMode adapter render) w = Normal tt.
Proof.
  intros Hc w'. split_and!.
  - subst w'. unfold exec. rewrite toggleBreathingMode_run.
    unfold exec. rewrite (sendCommand_disconnected _ _ _ _ Hc). cbn. by apply added_app.
  - subst w'. by rewrite toggleBreathingMode_store.
  - apply (toggleBreathingMode_flips adapter render w).
Qed.

(** X18. Toggling, re-rendering and toggling again restores the whole
    store, whatever the adapter answered; a second toggle from the first
    render's closure instead leaves the flag flipped. *)
Theorem toggleBreathingMode_twice adapter adapter' w :
  let w1 := exec (toggleBreathingMode adapter (store w)) w in
  let w2 := exec (toggleBreathingMode adapter' (store w1)) w1 in
  let stale := exec (toggleBreathingMode adapter' (store w)) w1 in
  store w2 = store w
  /\ breathingMode (store w1) = negb (breathingMode (store w))
  /\ breathingMode (store stale) = negb (breathingMode (store w)).
Proof.
  cbn zeta. rewrite !toggleBreathingMode_store. cbn. split_and!; try done.
  rewrite negb_involutive. by destruct w as [[]].
Qed.

(** ** More on the framing *)

Lemma Buffer_from_mod array : Buffer_from array = (fun x => x mod 256) <$> array.
Proof.
  unfold Buffer_from. apply list_fmap_ext. intros _ x _.
  change 255 with (Z.ones 8). by rewrite Z.land_ones by lia.
Qed.

(** X19. Two commands are framed as the same payload exactly when their
    entries agree modulo 256: distinct byte sequences never share a payload,
    and an entry outside a byte is sent as its low eight bits. *)
Theorem base64Command_same_payload command1 command2 :
  base64Command command1 = base64Command command2
  <-> (fun x => x mod 256) <$> command1 = (fun x => x mod 256) <$> command2.
Proof.
  rewrite <- !Buffer_from_mod. unfold base64Command, toString_base64. split.
  - intros H. apply (f_equal list_ascii_of_string) in H.
    rewrite !list_ascii_of_string_of_list_ascii in H.
    apply (f_equal base64_decode) in H.
    rewrite !base64_decode_chars in H by apply Buffer_from_bytes. by injection H.
  - by intros ->.
Qed.

Lemma base64_chars_length bytes :
  length (base64_chars bytes) = (4 * ((length bytes + 2) / 3))%nat.
Proof.
  enough (H : forall rest,
            length (base64_chars rest) = (4 * ((length rest + 2) / 3))%nat
            /\ (forall a, length (base64_chars (a :: rest))
                          = (4 * ((length (a :: rest) + 2) / 3))%nat)
            /\ (forall a b, length (base64_chars (a :: b :: rest))
                            = (4 * ((length (a :: b :: rest) + 2) / 3))%nat))
    by apply H.
  induction rest as [|c rest (IH0 & IH1 & IH2)].
  - split_and!; done.
  - split_and!; [apply IH1 | intros a; apply IH2 |].
    intros a b. cbn [base64_chars length]. rewrite IH0.
    replace (S (S (S (length rest))) + 2)%nat with (1 * 3 + (length rest + 2))%nat by lia.
    rewrite Nat.div_add_l by lia. lia.
Qed.

Lemma base64_char_alphabet s : 0 <= s < 64 -> base64_char s ∈ base64_alphabet.
Proof.
  intros Hs. unfold base64_char. apply list_elem_of_In, nth_In.
  change (length base64_alphabet) with 64%nat. lia.
Qed.

Lemma base64_chars_alphabet bytes :
  Forall is_byte bytes ->
  Forall (fun c => c ∈ base64_alphabet \/ c = "="%char) (base64_chars bytes).
Proof.
  enough (H : forall rest, Forall is_byte rest ->
            Forall (fun c => c ∈ base64_alphabet \/ c = "="%char) (base64_chars rest)
            /\ (forall a, is_byte a ->
                  Forall (fun c => c ∈ base64_alphabet \/ c = "="%char)
                    (base64_chars (a :: rest)))
            /\ (forall a b, is_byte a -> is_byte b ->
                  Forall (fun c => c ∈ base64_alphabet \/ c = "="%char)
                    (base64_chars (a :: b :: rest))))
    by (intros Hb; by apply H).
  induction 1 as [|c rest Hc Hrest (IH0 & IH1 & IH2)].
  - split_and!; [constructor | |].
    + intros a Ha. pair_facts a a Ha Ha. cbn [base64_chars].
      repeat (apply List.Forall_cons;
                [first [by right | left; by apply base64_char_alphabet, in_sextet_spec]|]).
      apply List.Forall_nil.
    + intros a b Ha Hb. pair_facts a b Ha Hb. pair_facts b b Hb Hb. cbn [base64_chars].
      repeat (apply List.Forall_cons;
                [first [by right | left; by apply base64_char_alphabet, in_sextet_spec]|]).
      apply List.Forall_nil.
  - split_and!; [by apply IH1 | intros; by apply IH2 |].
    intros a b Ha Hb. pair_facts a b Ha Hb. pair_facts b c Hb Hc. pair_facts b b Hb Hb.
    cbn [base64_chars].
    repeat (apply List.Forall_cons; [left; by apply base64_char_alphabet, in_sextet_spec|]).
    exact IH0.
Qed.

(** X20. The payload of a command of n entries has 4 * ceil(n / 3)
    characters, each from the base64 alphabet or the pad; it is empty only
    for the empty command. *)
Theorem base64Command_shape command :
  String.length (base64Command command) = (4 * ((length command + 2) / 3))%nat
  /\ Forall (fun c => c ∈ base64_alphabet \/ c = "="%char)
       (list_ascii_of_string (base64Command command))
  /\ (base64Command command = "" <-> command = []).
Proof.
  unfold base64Command, toString_base64.
  assert (Hlen : String.length (string_of_list_ascii (base64_chars (Buffer_from command)))
                 = (4 * ((length command + 2) / 3))%nat).
  { rewrite <- (length_fmap (fun x => Z.land x 255) command).
    fold (Buffer_from command). rewrite <- base64_chars_length.
    generalize (base64_chars (Buffer_from command)). intros chars.
    induction chars as [|c chars IH]; cbn; [done | by rewrite IH]. }
  split_and!; [done| |].
  - rewrite list_ascii_of_string_of_list_ascii.
    apply base64_chars_alphabet, Buffer_from_bytes.
  - split.
    + intros H. rewrite H in Hlen. destruct command as [|x command]; [done|].
      cbn [length String.length] in Hlen.
      pose proof (Nat.div_le_lower_bound (S (length command) + 2) 3 1) as Hdiv. lia.
    + by intros ->.
Qed.

(** X21. No two commands of the table are framed as the same payload. *)
Theorem MOTOR_COMMANDS_distinct_payloads key1 key2 bytes1 bytes2 :
  MOTOR_COMMANDS !! key1 = Some bytes1 ->
  MOTOR_COMMANDS !! key2 = Some bytes2 ->
  base64Command bytes1 = base64Command bytes2 ->
  key1 = key2.
Proof.
  intros H1 H2 Hsame.
  apply MOTOR_COMMANDS_lookup in H1. apply MOTOR_COMMANDS_lookup in H2.
  unfold MOTOR_COMMANDS_rows in *.
  repeat (apply elem_of_cons in H1 as [H1|H1]; [injection H1 as -> ->|]);
    [..|by apply elem_of_nil in H1];
    (repeat (apply elem_of_cons in H2 as [H2|H2]; [injection H2 as -> ->|]);
       [..|by apply elem_of_nil in H2]);
    first [reflexivity | by vm_compute in Hsame].
Qed.

(** ** The motor slider *)

Lemma Math_round_near (value : Q) :
  (inject_Z (Math_round value) <= value + (1 # 2))%Q
  /\ (value - (1 # 2) < inject_Z (Math_round value))%Q.
Proof.
  unfold Math_round. split; [apply Qfloor_le|].
  pose proof (Qlt_floor (value + (1 # 2))) as H.
  rewrite inject_Z_plus in H. change (inject_Z 1) with 1%Q in H. lra.
Qed.

Lemma Math_round_integer (n : Z) : Math_round (inject_Z n) = n.
Proof.
  destruct (Math_round_near (inject_Z n)) as [Hle Hlt].
  assert (H1 : (inject_Z (Math_round (inject_Z n)) < inject_Z (n + 1))%Q)
    by (rewrite inject_Z_plus; change (inject_Z 1) with 1%Q; lra).
  assert (H2 : (inject_Z n < inject_Z (Math_round (inject_Z n) + 1))%Q)
    by (rewrite inject_Z_plus; change (inject_Z 1) with 1%Q; lra).
  rewrite <- Zlt_Qlt in H1, H2. lia.
Qed.

Lemma Math_round_range (value : Q) :
  (0 <= value)%Q -> (value <= 255)%Q -> 0 <= Math_round value <= 255.
Proof.
  intros Hlo Hhi. destruct (Math_round_near value) as [Hle Hlt].
  assert (H1 : (inject_Z (Math_round value) < inject_Z 256)%Q)
    by (change (inject_Z 256) with 256%Q; lra).
  assert (H2 : (inject_Z 0 < inject_Z (Math_round value + 1))%Q)
    by (rewrite inject_Z_plus; change (inject_Z 1) with 1%Q; change (inject_Z 0) with 0%Q; lra).
  rewrite <- Zlt_Qlt in H1, H2. lia.
Qed.

(** X22. Releasing the motor slider at a value between 0 and 255 stores
    an integer between 0 and 255 that is within one half of the value; the
    pump value and every other cell are kept, and no call is made. *)
Theorem onSlidingComplete_keeps_motor_in_range (value : Q) w :
  (0 <= value)%Q -> (value <= 255)%Q ->
  let w' := exec (onSlidingComplete value) w in
  0 <= motor (sliderValues (store w')) <= 255
  /\ (inject_Z (motor (sliderValues (store w'))) <= value + (1 # 2))%Q
  /\ (value - (1 # 2) < inject_Z (motor (sliderValues (store w'))))%Q
  /\ pump (sliderValues (store w')) = pump (sliderValues (store w))
  /\ isScanning (store w') = isScanning (store w)
  /\ connectedDevice (store w') = connectedDevice (store w)
  /\ devices (store w') = devices (store w)
  /\ breathingMode (store w') = breathingMode (store w)
  /\ trace w' = trace w.
Proof.
  intros Hlo Hhi w'. subst w'. cbn -[Math_round Qplus Qminus Qle Qlt inject_Z].
  destruct (Math_round_near value) as [Hle Hlt].
  split_and!; try done; by apply Math_round_range.
Qed.

(** A release on a whole step stores that step; releasing there again
    changes nothing. *)
Lemma onSlidingComplete_whole_step (n : Z) w :
  motor (sliderValues (store (exec (onSlidingComplete (inject_Z n)) w))) = n
  /\ exec (onSlidingComplete (inject_Z n)) (exec (onSlidingComplete (inject_Z n)) w)
     = exec (onSlidingComplete (inject_Z n)) w.
Proof. cbn -[Math_round inject_Z]. by rewrite Math_round_integer. Qed.

(** ** Presses *)

Lemma onPress_preserves adapter render press :
  preserves
    (advances (fun e => breathing_write e /\ is_stop e = false) keeps_registry)
    (onPress adapter render press).
Proof.
  intros w. destruct press as [| |index|]; cbn [onPress].
  - destruct (isScanning render); [apply preserves_ret; apply _|].
    eapply advances_weaken; [| |apply startScan_preserves].
    + intros e He. by destruct e.
    + intros s s' (_ & _ & _ & H). exact H.
  - destruct (connectedDevice render); [|apply preserves_ret; apply _].
    eapply advances_weaken; [| |apply disconnectDevice_preserves].
    + intros e He. by destruct e.
    + intros s s' (_ & Hd & _) Hok. unfold same in Hd. by rewrite Hd.
  - destruct (devices render !! index) as [device|]; [|apply preserves_ret; apply _].
    destruct (connectedDevice render); [apply preserves_ret; apply _|].
    eapply advances_weaken; [| |apply connectToDevice_preserves].
    + intros e He. by destruct e.
    + intros s s' (_ & Hd & _) Hok. unfold same in Hd. by rewrite Hd.
  - eapply advances_weaken; [| |apply toggleBreathingMode_preserves].
    + intros e [He Hk]. split; [done|]. by destruct e.
    + intros s s' (_ & _ & Hd & _) Hok. unfold same in Hd. by rewrite Hd.
Qed.

(** X23. While a device is connected, no press replaces it: after any
    press the same device is still recorded, or none is, which happens only
    for the disconnect button when the adapter completes the cancel; no
    press makes a connect or enumeration request. *)
Theorem onPress_keeps_the_connection adapter (w : World) press connected :
  connectedDevice (store w) = Some connected ->
  let w' := exec (onPress adapter (store w) press) w in
  (connectedDevice (store w') = Some connected
   \/ (connectedDevice (store w') = None /\ press = PressDisconnect
       /\ cancelConnection adapter connected = Normal tt))
  /\ filter is_connect (added w w') = [].
Proof.
  intros Hc w'. subst w'. destruct press as [| |index|]; cbn [onPress].
  - destruct (isScanning (store w)) eqn:Hs.
    + cbn. unfold added. rewrite drop_all. auto.
    + destruct (advances_added _ _ _ _ (startScan_preserves adapter (store w) w))
        as (_ & Hcalls & Hsame & _).
      split; [left; by rewrite Hsame|].
      eapply filter_none; [|exact Hcalls]. by intros [].
  - rewrite Hc.
    destruct (advances_added _ _ _ _ (disconnectDevice_preserves adapter (store w) w))
      as (_ & Hcalls & _).
    split; [|eapply filter_none; [|exact Hcalls]; by intros []].
    destruct (cancelConnection adapter connected) as [[]|reason] eqn:Hx; unfold exec.
    + rewrite (disconnectDevice_cancelled adapter (store w) w connected Hc Hx). cbn. auto.
    + rewrite (disconnectDevice_rejected adapter (store w) w connected reason Hc Hx). cbn. auto.
  - rewrite Hc. destruct (devices (store w) !! index); cbn; unfold added; rewrite drop_all; auto.
  - destruct (advances_added _ _ _ _ (toggleBreathingMode_preserves adapter (store w) w))
      as (_ & Hcalls & _ & Hsame & _).
    split; [left; by rewrite Hsame|].
    eapply filter_none; [|exact Hcalls]. intros e [_ He]. by destruct e.
Qed.

Lemma connectToDevice_calls adapter device :
  preserves
    (advances (fun e => e = Connect device
                        \/ (exists connected,
                              e = DiscoverAllServicesAndCharacteristics connected)
                        \/ is_report e = true)
       any_store)
    (connectToDevice adapter device).
Proof.
  unfold connectToDevice, console_log, console_error, Alert_alert, setConnectedDevice.
  preserves_steps; preserves_prims; eauto.
Qed.

(** X24. A press asks the adapter to connect only to a device of the
    rendered list, pressed at its index, and only while no device is
    connected. *)
Theorem onPress_connects_listed_devices adapter render w press device :
  Connect device ∈ added w (exec (onPress adapter render press) w) ->
  device ∈ devices render
  /\ connectedDevice render = None
  /\ exists index, press = PressDevice index /\ devices render !! index = Some device.
Proof.
  destruct press as [| |index|]; cbn [onPress].
  - destruct (isScanning render).
    + cbn. unfold added. rewrite drop_all. by intros ?%elem_of_nil.
    + destruct (advances_added _ _ _ _ (startScan_preserves adapter render w))
        as (_ & Hcalls & _).
      intros Hin. rewrite Forall_forall in Hcalls. by specialize (Hcalls _ Hin).
  - destruct (connectedDevice render) as [connected|].
    + destruct (advances_added _ _ _ _ (disconnectDevice_preserves adapter render w))
        as (_ & Hcalls & _).
      intros Hin. rewrite Forall_forall in Hcalls. by specialize (Hcalls _ Hin).
    + cbn. unfold added. rewrite drop_all. by intros ?%elem_of_nil.
  - destruct (devices render !! index) as [listed|] eqn:Hl;
      [|cbn; unfold added; rewrite drop_all; by intros ?%elem_of_nil].
    destruct (connectedDevice render) as [connected|] eqn:Hc;
      [cbn; unfold added; rewrite drop_all; by intros ?%elem_of_nil|].
    intros Hin.
    assert (device = listed) as ->.
    { destruct (advances_added _ _ _ _ (connectToDevice_calls adapter listed w))
        as (_ & Hcalls & _).
      rewrite Forall_forall in Hcalls.
      destruct (Hcalls _ Hin) as [?|[[c ?]|?]]; by simplify_eq. }
    split_and!; [by eapply list_elem_of_lookup_2 | done | eauto].
  - destruct (advances_added _ _ _ _ (toggleBreathingMode_preserves adapter render w))
      as (_ & Hcalls & _).
    intros Hin. rewrite Forall_forall in Hcalls. destruct (Hcalls _ Hin) as [_ H]. done.
Qed.

(** X25. While scanning, a press on the disabled scan button does
    nothing, whereas a direct call of [startScan] on Android still makes the
    permission request (and may alert) before it looks at the flag. *)
Theorem startScan_asks_before_guard adapter render w :
  isScanning render = true ->
  onPress adapter render PressScan w = (Normal tt, w)
  /\ (Platform_OS adapter = "android" ->
      added w (exec (startScan adapter render) w) = [RequestMultiple requested_permissions]
      \/ exists alert, added w (exec (startScan adapter render) w)
                       = [RequestMultiple requested_permissions; alert]).
Proof.
  intros Hs. split; [cbn; by rewrite Hs|]. intros Hos.
  destruct (settled (requestPermissions adapter) w) as [[|]|reason] eqn:Hp.
  - left. unfold exec at 1. rewrite (startScan_already_scanning adapter render w Hp Hs). cbn.
    destruct (requestPermissions_run adapter w) as [_ ->]. by rewrite (strict_eq_intro _ _ Hos).
  - right. eexists. unfold exec. rewrite (startScan_refused adapter render w Hp). cbn.
    by erewrite added_app.
  - left. unfold exec at 1, startScan. rewrite (bind_throw _ _ w reason Hp). cbn.
    destruct (requestPermissions_run adapter w) as [_ ->]. by rewrite (strict_eq_intro _ _ Hos).
Qed.

(** ** Sessions *)

Lemma react_preserves adapter render event :
  preserves (advances breathing_write keeps_registry) (react adapter render event).
Proof.
  intros w. destruct event as [press|event| |value]; cbn [react].
  - eapply advances_weaken; [| |apply onPress_preserves]; [by intros e [? _] | done].
  - eapply advances_weaken; [| |apply scanListener_preserves].
    + intros e He. by destruct e.
    + intros s s' (_ & _ & _ & H). exact H.
  - eapply advances_weaken; [| |apply scanTimeout_preserves].
    + intros e He. by destruct e.
    + intros s s' (_ & _ & _ & Hd) Hok. unfold same in Hd. by rewrite Hd.
  - eapply advances_weaken; [| |apply onSlidingComplete_preserves].
    + by intros e [].
    + intros s s' (_ & _ & Hd & _) Hok. unfold same in Hd. by rewrite Hd.
Qed.

Lemma session_advances steps w :
  advances breathing_write keeps_registry w (session steps w).
Proof.
  revert w. induction steps as [|[[adapter render] event] steps IH]; intros w; cbn [session].
  - reflexivity.
  - etrans; [apply react_preserves | apply IH].
Qed.

(** X26. In every state the screen can reach from its initial state,
    through any presses, listener calls, timer calls and slider releases,
    under any adapter answers and from any closures, the rendered device
    keys are distinct and every listed device was advertised as "SYNC". *)
Theorem session_device_list steps :
  let w := session steps (world_of initialStore) in
  NoDup (deviceKeys (store w))
  /\ Forall (fun device => name device = Some "SYNC") (devices (store w)).
Proof.
  destruct (session_advances steps (world_of initialStore)) as [_ Hok].
  apply Hok, registry_ok_nil.
Qed.

(** X27. Every write the screen ever makes goes to characteristic
    0000ff03-... of service 000000ff-... and carries "AQEB" or "AQAB": the
    FORWARD, REVERSE and STOP commands of the table are never sent. *)
Theorem session_writes steps device service characteristic payload :
  WriteCharacteristicWithResponseForService device service characteristic payload
    ∈ trace (session steps (world_of initialStore)) ->
  service = "000000ff-0000-1000-8000-00805f9b34fb"
  /\ characteristic = "0000ff03-0000-1000-8000-00805f9b34fb"
  /\ (payload = "AQEB" \/ payload = "AQAB").
Proof.
  destruct (session_advances steps (world_of initialStore)) as [(new & -> & Hnew) _].
  cbn. intros Hin. rewrite Forall_forall in Hnew. exact (Hnew _ Hin).
Qed.

Lemma time_boxed_app calls new :
  time_boxed calls -> time_boxed new -> time_boxed (calls ++ new).
Proof.
  intros Hcalls Hnew before after Heq. symmetry in Heq.
  apply app_eq_app in Heq as [mid [[Hb Hmid]|[Hc Hmid]]].
  - by apply (Hnew mid after).
  - destruct mid as [|e mid].
    + rewrite app_nil_r in Hc. cbn in Hmid. subst. by apply (Hnew [] after).
    + injection Hmid as He Ha.
      destruct (Hcalls before mid) as [rest Hrest]; [by rewrite Hc, He|].
      exists (rest ++ new). by rewrite Ha, Hrest.
Qed.

Lemma time_boxed_none calls :
  Forall (fun e => e <> StartDeviceScan) calls -> time_boxed calls.
Proof.
  intros Hnone before after ->. apply Forall_app in Hnone as [_ Hnone].
  by apply Forall_cons in Hnone as [? _].
Qed.

Lemma startScan_time_boxed adapter render w :
  time_boxed (added w (exec (startScan adapter render) w)).
Proof.
  assert (Hperm : time_boxed (added w (exec (requestPermissions adapter) w))).
  { destruct (requestPermissions_run adapter w) as [_ ->].
    apply time_boxed_none. destruct (Platform_OS adapter === "android"); by repeat constructor. }
  destruct (settled (requestPermissions adapter) w) as [[|]|reason] eqn:Hp.
  - destruct (isScanning render) eqn:Hs; unfold exec at 1.
    + by rewrite (startScan_already_scanning adapter render w Hp Hs).
    + rewrite (startScan_started adapter render w Hp Hs). cbn [snd].
      erewrite added_app by done. apply time_boxed_app; [done|].
      intros before after Heq. destruct before as [|e before].
      * injection Heq as <-. eauto.
      * injection Heq as _ Heq. destruct before as [|e' before]; [done|].
        injection Heq as _ Heq. by destruct before.
  - unfold exec at 1. rewrite (startScan_refused adapter render w Hp). cbn [snd].
    erewrite added_app by done. apply time_boxed_none. by repeat constructor.
  - unfold exec at 1, startScan. by rewrite (bind_throw _ _ w reason Hp).
Qed.

Lemma react_time_boxed adapter render event w :
  time_boxed (added w (exec (react adapter render event) w)).
Proof.
  assert (Hother : forall (m : M unit) P Q,
            preserves (advances P Q) m -> (forall e, P e -> starts_scan e = false) ->
            time_boxed (added w (exec m w))).
  { intros m P Q Hm HP. destruct (advances_added _ _ _ _ (Hm w)) as (_ & Hcalls & _).
    apply time_boxed_none. eapply Forall_impl; [exact Hcalls|].
    intros e He%HP ->. done. }
  destruct event as [[| |index|]|event| |value]; cbn [react onPress].
  - destruct (isScanning render); [|apply startScan_time_boxed].
    cbn. unfold added. rewrite drop_all. by apply time_boxed_none.
  - destruct (connectedDevice render).
    + eapply Hother; [apply disconnectDevice_preserves|]. by intros [].
    + cbn. unfold added. rewrite drop_all. by apply time_boxed_none.
  - destruct (devices render !! index) as [device|];
      [|cbn; unfold added; rewrite drop_all; by apply time_boxed_none].
    destruct (connectedDevice render);
      [cbn; unfold added; rewrite drop_all; by apply time_boxed_none|].
    eapply Hother; [apply connectToDevice_preserves|]. by intros [].
  - eapply Hother; [apply toggleBreathingMode_preserves|]. intros e [_ He]. by destruct e.
  - eapply Hother; [apply scanListener_preserves|]. by intros [].
  - eapply Hother; [apply scanTimeout_preserves|]. by intros [].
  - eapply Hother; [apply onSlidingComplete_preserves|]. by intros e [].
Qed.

(** X28. Every scan the screen ever starts has its 5000 ms timer set
    immediately after it. *)
Theorem session_scans_time_boxed steps :
  time_boxed (trace (session steps (world_of initialStore))).
Proof.
  enough (H : forall w, time_boxed (trace w) -> time_boxed (trace (session steps w))).
  { apply H. cbn. by apply time_boxed_none. }
  induction steps as [|[[adapter render] event] steps IH]; intros w Hw; cbn [session]; [done|].
  apply IH.
  destruct (advances_added _ _ _ _ (react_preserves adapter render event w)) as (-> & _).
  apply time_boxed_app; [done | apply react_time_boxed].
Qed.

(** ** What each handler leaves alone *)

(** X29. A scan start keeps the connected device, the slider values and the
    breathing flag, and makes no connect, cancel or write request. A
    disconnect keeps the scanning flag, the device list, the slider values
    and the breathing flag, and makes no connect, write or scan request. A
    breathing toggle keeps the scanning flag, the connected device, the
    device list and the slider values, and makes no connect, cancel or scan
    request. The scan timer clears the scanning flag and keeps everything
    else, the device list included. *)
Theorem handlers_keep_other_cells adapter render w :
  (let w' := exec (startScan adapter render) w in
   connectedDevice (store w') = connectedDevice (store w)
   /\ sliderValues (store w') = sliderValues (store w)
   /\ breathingMode (store w') = breathingMode (store w)
   /\ filter is_connect (added w w') = []
   /\ filter is_cancel (added w w') = []
   /\ filter is_write (added w w') = [])
  /\ (let w' := exec (disconnectDevice adapter render) w in
      isScanning (store w') = isScanning (store w)
      /\ devices (store w') = devices (store w)
      /\ sliderValues (store w') = sliderValues (store w)
      /\ breathingMode (store w') = breathingMode (store w)
      /\ filter is_connect (added w w') = []
      /\ filter is_write (added w w') = []
      /\ filter starts_scan (added w w') = [])
  /\ (let w' := exec (toggleBreathingMode adapter render) w in
      isScanning (store w') = isScanning (store w)
      /\ connectedDevice (store w') = connectedDevice (store w)
      /\ devices (store w') = devices (store w)
      /\ sliderValues (store w') = sliderValues (store w)
      /\ filter is_connect (added w w') = []
      /\ filter is_cancel (added w w') = []
      /\ filter starts_scan (added w w') = [])
  /\ (let w' := exec scanTimeout w in
      isScanning (store w') = false
      /\ connectedDevice (store w') = connectedDevice (store w)
      /\ devices (store w') = devices (store w)
      /\ sliderValues (store w') = sliderValues (store w)
      /\ breathingMode (store w') = breathingMode (store w)
      /\ added w w' = [StopDeviceScan]).
Proof.
  cbn zeta.
  destruct (advances_added _ _ _ _ (startScan_preserves adapter render w))
    as (_ & Hscan & Hs1 & Hs2 & Hs3 & _).
  destruct (advances_added _ _ _ _ (disconnectDevice_preserves adapter render w))
    as (_ & Hdis & Hd1 & Hd2 & Hd3 & Hd4).
  destruct (advances_added _ _ _ _ (toggleBreathingMode_preserves adapter render w))
    as (_ & Htog & Ht1 & Ht2 & Ht3 & Ht4).
  split_and!; try done.
  all: try (eapply filter_none; [|first [exact Hscan | exact Hdis]]; by intros []).
  all: try (eapply filter_none; [|exact Htog]; intros e [_ He]; by destruct e).
  by apply added_app.
Qed.

(** ** Instances *)

Lemma startScan_request_rejected_witness :
  startScan crashing_adapter scanningStore (world_of scanningStore)
  = (Throw "Permission request failed",
     {| store := scanningStore; trace := [RequestMultiple requested_permissions] |}).
Proof.
  exact (startScan_request_rejected crashing_adapter scanningStore (world_of scanningStore)
           "Permission request failed" eq_refl eq_refl).
Defined.

Lemma startScan_begins_witness :
  settled (requestPermissions willing_adapter) (world_of connectedStore) = Normal true
  /\ isScanning connectedStore = false
  /\ devices (store (exec (startScan willing_adapter connectedStore)
                       (world_of connectedStore))) = []
  /\ connectedDevice (store (exec (startScan willing_adapter connectedStore)
                               (world_of connectedStore))) = Some sync_A.
Proof.
  pose proof (startScan_begins willing_adapter connectedStore (world_of connectedStore)
                eq_refl eq_refl) as (_ & Hstore & _).
  split_and!; [reflexivity | reflexivity | by rewrite Hstore | by rewrite Hstore].
Defined.

Lemma startScan_guard_is_per_render_witness :
  filter starts_scan
    (added (world_of initialStore)
       (exec (startScan willing_adapter initialStore ;;; startScan willing_adapter initialStore)
          (world_of initialStore)))
  = [StartDeviceScan; SetTimeout 5000; StartDeviceScan; SetTimeout 5000].
Proof.
  exact (proj1 (startScan_guard_is_per_render willing_adapter initialStore
                  (world_of initialStore) eq_refl eq_refl)).
Defined.

Lemma scanListener_ignores_isScanning_witness :
  devices (store (exec (scanTimeout ;;; scanListener (Advertisement sync_D))
                    (world_of connectedStore)))
  = [sync_A; sync_D].
Proof.
  pose proof (scanListener_ignores_isScanning (world_of connectedStore) sync_D eq_refl)
    as H.
  refine (proj1 (proj2 (proj2 (H _)))).
  cbn. rewrite list_elem_of_singleton. discriminate.
Defined.

Lemma scan_restarts_after_timeout_witness :
  devices (store (exec (startScan willing_adapter initialStore ;;;
                        deliver [Advertisement sync_A] ;;; scanTimeout)
                    (world_of initialStore)))
  = discovered willing_adapter initialStore (world_of initialStore) [Advertisement sync_A].
Proof.
  exact (proj1 (proj2 (scan_restarts_after_timeout willing_adapter willing_adapter
                         initialStore (world_of initialStore) [Advertisement sync_A]
                         eq_refl eq_refl eq_refl))).
Defined.

Lemma stale_timer_stops_new_scan_witness :
  isScanning
    (store (exec scanTimeout
              (exec (startScan willing_adapter
                       (store (exec (startScan willing_adapter initialStore ;;;
                                     scanListener (ScanError "Scan failed"))
                                 (world_of initialStore))))
                 (exec (startScan willing_adapter initialStore ;;;
                        scanListener (ScanError "Scan failed"))
                    (world_of initialStore)))))
  = false.
Proof.
  exact (proj1 (proj2 (proj2 (proj2 (proj2
           (stale_timer_stops_new_scan willing_adapter willing_adapter initialStore
              (world_of initialStore) "Scan failed" eq_refl eq_refl eq_refl)))))).
Defined.

Lemma connectToDevice_success_witness :
  connectedDevice (store (exec (connectToDevice willing_adapter sync_D)
                            (world_of connectedStore)))
  = Some sync_D.
Proof.
  pose proof (connectToDevice_success willing_adapter sync_D (world_of connectedStore)
                sync_D eq_refl eq_refl) as [Hstore _].
  by rewrite Hstore.
Defined.

Lemma discovery_failure_leaves_link_open_witness :
  filter is_cancel
    (added (world_of initialStore)
       (exec (connectToDevice half_adapter sync_A) (world_of initialStore)))
  = []
  /\ Connect sync_A
     ∈ added (world_of initialStore)
         (exec (connectToDevice half_adapter sync_A) (world_of initialStore)).
Proof.
  pose proof (discovery_failure_leaves_link_open half_adapter sync_A (world_of initialStore)
                sync_A "Services discovery failed" eq_refl eq_refl) as (Hadded & Hnone & _).
  split; [exact Hnone|]. rewrite Hadded. set_solver.
Defined.

Lemma connect_then_disconnect_witness :
  store (exec (disconnectDevice willing_adapter
                 (store (exec (connectToDevice willing_adapter sync_A)
                           (world_of initialStore))))
           (exec (connectToDevice willing_adapter sync_A) (world_of initialStore)))
  = initialStore.
Proof.
  exact (proj1 (proj2 (connect_then_disconnect willing_adapter willing_adapter sync_A
                         (world_of initialStore) sync_A eq_refl eq_refl eq_refl eq_refl))).
Defined.

Lemma disconnectDevice_rejection_witness :
  settled (disconnectDevice failing_adapter connectedStore) (world_of connectedStore)
  = Throw "Device not connected"
  /\ connectedDevice
       (store (exec (disconnectDevice willing_adapter connectedStore)
                 (exec (disconnectDevice failing_adapter connectedStore)
                    (world_of connectedStore))))
     = None.
Proof.
  pose proof (disconnectDevice_rejection failing_adapter willing_adapter connectedStore
                (world_of connectedStore) sync_A "Device not connected"
                eq_refl eq_refl eq_refl) as (Hs & _ & _ & _ & Hnone).
  split; [exact Hs | exact Hnone].
Defined.

Lemma cleanup_cancels_again_witness :
  effectCleanup connectedStore = [SubscriptionRemove; CancelConnectionUnawaited sync_A]
  /\ effectCleanup (store (exec (disconnectDevice willing_adapter connectedStore)
                             (world_of connectedStore)))
     = [SubscriptionRemove].
Proof.
  pose proof (cleanup_cancels_again willing_adapter connectedStore (world_of connectedStore)
                sync_A eq_refl eq_refl) as (_ & _ & Hold & Hnew).
  split; [exact Hold | exact Hnew].
Defined.

Lemma toggleBreathingMode_sends_what_the_button_names_witness :
  filter is_write
    (added (world_of connectedStore)
       (exec (toggleBreathingMode willing_adapter connectedStore) (world_of connectedStore)))
  = [WriteCharacteristicWithResponseForService sync_A
       BLE_CONFIG.SERVICE_UUID BLE_CONFIG.WRITE_CHARACTERISTIC "AQEB"].
Proof.
  exact (proj1 (toggleBreathingMode_sends_what_the_button_names willing_adapter
                  connectedStore (world_of connectedStore) sync_A eq_refl)).
Defined.

Lemma toggleBreathingMode_without_device_witness :
  breathingMode (store (exec (toggleBreathingMode willing_adapter initialStore)
                          (world_of initialStore)))
  = true.
Proof.
  exact (proj1 (proj2 (toggleBreathingMode_without_device willing_adapter initialStore
                         (world_of initialStore) eq_refl))).
Defined.

Lemma MOTOR_COMMANDS_distinct_payloads_witness :
  MOTOR_COMMANDS !! "REVERSE" = Some [0x01; 0x01]
  /\ base64Command [0x01; 0x01] = "AQE="
  /\ "REVERSE" = "REVERSE".
Proof.
  split; [reflexivity|]. split; [reflexivity|].
  exact (MOTOR_COMMANDS_distinct_payloads "REVERSE" "REVERSE" [0x01; 0x01] [0x01; 0x01]
           eq_refl eq_refl eq_refl).
Defined.

Lemma onSlidingComplete_keeps_motor_in_range_witness :
  0 <= motor (sliderValues (store (exec (onSlidingComplete (255 # 2))
                                     (world_of initialStore)))) <= 255.
Proof.
  refine (proj1 (onSlidingComplete_keeps_motor_in_range (255 # 2) (world_of initialStore)
                   _ _)); discriminate.
Defined.

Lemma onPress_keeps_the_connection_witness :
  filter is_connect
    (added (world_of connectedStore)
       (exec (onPress willing_adapter connectedStore (PressDevice 0))
          (world_of connectedStore)))
  = [].
Proof.
  exact (proj2 (onPress_keeps_the_connection willing_adapter (world_of connectedStore)
                  (PressDevice 0) sync_A eq_refl)).
Defined.

Lemma onPress_connects_listed_devices_witness :
  sync_A ∈ devices scanningStore /\ connectedDevice scanningStore = None.
Proof.
  pose proof (onPress_connects_listed_devices willing_adapter scanningStore
                (world_of scanningStore) (PressDevice 0) sync_A) as H.
  refine (let H' := H _ in conj (proj1 H') (proj1 (proj2 H'))).
  cbn. set_solver.
Defined.

Lemma startScan_asks_before_guard_witness :
  onPress willing_adapter scanningStore PressScan (world_of scanningStore)
  = (Normal tt, world_of scanningStore).
Proof.
  exact (proj1 (startScan_asks_before_guard willing_adapter scanningStore
                  (world_of scanningStore) eq_refl)).
Defined.

Lemma session_writes_witness :
  WriteCharacteristicWithResponseForService sync_A
    BLE_CONFIG.SERVICE_UUID BLE_CONFIG.WRITE_CHARACTERISTIC "AQEB"
    ∈ trace (session [(willing_adapter, initialStore, Pressed (PressDevice 0));
                      (willing_adapter, connectedStore, Pressed PressBreathing)]
               (world_of initialStore))
  /\ BLE_CONFIG.SERVICE_UUID = "000000ff-0000-1000-8000-00805f9b34fb"
  /\ BLE_CONFIG.WRITE_CHARACTERISTIC = "0000ff03-0000-1000-8000-00805f9b34fb"
  /\ ("AQEB" = "AQEB" \/ "AQEB" = "AQAB").
Proof.
  assert (Hin : WriteCharacteristicWithResponseForService sync_A
                  BLE_CONFIG.SERVICE_UUID BLE_CONFIG.WRITE_CHARACTERISTIC "AQEB"
                  ∈ trace (session
                             [(willing_adapter, initialStore, Pressed (PressDevice 0));
                              (willing_adapter, connectedStore, Pressed PressBreathing)]
                             (world_of initialStore)))
    by (cbn; set_solver).
  split; [exact Hin|]. exact (session_writes _ _ _ _ _ Hin).
Defined.

Lemma session_scans_time_boxed_witness :
  trace (session [(willing_adapter, initialStore, Pressed PressScan)] (world_of initialStore))
  = [RequestMultiple requested_permissions] ++ StartDeviceScan :: [SetTimeout 5000]
  /\ exists rest, [SetTimeout 5000] = SetTimeout 5000 :: rest.
Proof.
  split; [reflexivity|].
  exact (session_scans_time_boxed
           [(willing_adapter, initialStore, Pressed PressScan)]
           [RequestMultiple requested_permissions] [SetTimeout 5000] eq_refl).
Defined.
